(** * A poker bot's hand scorer, betting round and blind rotation

    Shallow embedding of [pokeher/cards.py], [arena/betting.py] and
    [standalone/preflop_hand_wins.py].

    Conventions of the embedding:
    - a Python [int] is a [Z];
    - a Python number that may be a [float] (hand scores, equities) is a
      rational [Q].  The scorer only ever builds [k], [k + 0.01 * v] and
      [k + 0.1 * v] for small integers [k], [v]: two such values are equal
      or at least one hundredth apart, and where two of them are equal
      ([0.1 * 10] and [1]) the floats are equal too, so comparing them as
      rationals gives the answers of the float comparison.  The equities
      are [(wins / 10) * 100.0] with [0 <= wins <= 10]; float rounding is
      monotone and keeps 0, 1 and 100, so the bounds carry over;
    - a Python exception is a [Raise e] result, a normal return an [Ok v];
    - a [dict] keyed by player name is a [gmap string Z], a list of players
      a [list string]. *)

From Stdlib Require Import ZArith QArith Lia Lqa Sorted.
From stdpp Require Import base option list gmap strings.

Local Open Scope Z_scope.

(** ** Python results *)

Inductive pyexn : Set :=
  | IndexError
  | KeyError
  | AssertionError
  | ZeroDivisionError.

Inductive result (A : Type) : Type :=
  | Ok (a : A)
  | Raise (e : pyexn).

Arguments Ok {A} a.
Arguments Raise {A} e.

#[global] Instance result_ret : MRet result := λ A a, Ok a.
#[global] Instance result_bind : MBind result := λ A B f r,
  match r with
  | Ok a => f a
  | Raise e => Raise e
  end.

(** [l[i]] for a Python list: a negative index counts from the end, an
    index outside [-len, len) raises [IndexError]. *)
Definition py_index {A : Type} (l : list A) (i : Z) : result A :=
  let n := Z.of_nat (length l) in
  let j := if i <? 0 then i + n else i in
  if (j <? 0) || (n <=? j) then Raise IndexError
  else match l !! Z.to_nat j with
       | Some x => Ok x
       | None => Raise IndexError
       end.

(** Truth value of a Python list: non-empty. *)
Definition py_truthy {A : Type} (l : list A) : bool :=
  match l with
  | [] => false
  | _ :: _ => true
  end.

(** [x < y] on numbers. *)
Definition Qlt_bool (x y : Q) : bool := negb (Qle_bool y x).

(** [itertools.combinations(l, k)]: the [k]-element subsequences of [l], in
    lexicographic order of their positions. *)
Fixpoint combinations {A : Type} (l : list A) (k : nat) : list (list A) :=
  match k with
  | O => [[]]
  | S k' =>
      match l with
      | [] => []
      | x :: xs => map (cons x) (combinations xs k') ++ combinations xs k
      end
  end.

(** ** [pokeher/cards.py] *)

Module Card.

(** [Suit] is an index into [SUITS]; [Suit.__init__] asserts
    [0 <= suit < 4], [Card.__init__] asserts [1 < value < 15]. *)
Record t : Set := mk { value : Z; suit : Z }.

Definition ok (c : t) : Prop :=
  1 < value c < 15 ∧ 0 <= suit c < 4.

(** [__eq__]: same value and same suit. *)
#[global] Instance eq_dec : EqDecision t.
Proof. solve_decision. Defined.

Definition is_pair (self other : t) : bool := value self =? value other.

Definition is_suited (self other : t) : bool := suit self =? suit other.

Definition score_value (self : t) : Q :=
  if value self <? 10
  then ((1 # 100) * inject_Z (value self))%Q
  else ((1 # 10) * inject_Z (value self))%Q.

(** [__lt__]: value first, then suit; also the order of the sort key
    [(card.value, card.suit.suit)]. *)
Definition lt (self other : t) : bool :=
  (value self <? value other)
  || ((value self =? value other) && (suit self <? suit other)).

End Card.

Module Constants.
Definition CLUBS : Z := 0.
Definition DIAMONDS : Z := 1.
Definition HEARTS : Z := 2.
Definition SPADES : Z := 3.
Definition JACK : Z := 11.
Definition QUEEN : Z := 12.
Definition KING : Z := 13.
Definition ACE : Z := 14.
End Constants.

Module HandBuilder.

Definition NO_SCORE : Q := (-1)%Q.
Definition HIGH_CARD : Q := 0%Q.
Definition PAIR : Q := 1%Q.
Definition TWO_PAIR : Q := 2%Q.
Definition TRIPS : Q := 3%Q.
Definition STRAIGHT : Q := 4%Q.
Definition FLUSH : Q := 5%Q.
Definition FULL_HOUSE : Q := 6%Q.
Definition QUADS : Q := 7%Q.
Definition STRAIGHT_FLUSH : Q := 8%Q.

Definition HAND_LENGTH : nat := 5.

(** [__sort_hand]: [list.sort(key=(value, suit), reverse=True)], a stable
    sort, high cards first.  [insert_desc] puts a card in front of the
    cards whose key is not greater, so cards with equal keys keep their
    order. *)
Fixpoint insert_desc (c : Card.t) (l : list Card.t) : list Card.t :=
  match l with
  | [] => [c]
  | d :: l' => if Card.lt c d then d :: insert_desc c l' else c :: d :: l'
  end.

Definition __sort_hand (cards : list Card.t) : list Card.t :=
  foldr insert_desc [] cards.

Definition __gap (card1 card2 : Card.t) : Z :=
  Card.value card1 - Card.value card2.

(** [is_straight]: every card is exactly one below the card before it. *)
Fixpoint is_straight_from (last_card : option Card.t) (cards : list Card.t)
  : bool :=
  match cards with
  | [] => true
  | card :: rest =>
      match last_card with
      | Some l =>
          if negb (__gap l card =? 1) then false
          else is_straight_from (Some card) rest
      | None => is_straight_from (Some card) rest
      end
  end.

Definition is_straight (cards : list Card.t) : bool :=
  is_straight_from None cards.

Definition suit_count (cards : list Card.t) (s : Z) : nat :=
  length (filter (λ c, Card.suit c = s) cards).

(** [select_flush_suit]: the suit that has [HAND_LENGTH] cards or more.
    [counts] has the keys 0 to 3, which is every suit of a card that
    [Suit.__init__] accepts, and is read in that order. *)
Definition select_flush_suit (cards : list Card.t) : option Z :=
  if py_truthy cards
  then List.find (λ s, (HAND_LENGTH <=? suit_count cards s)%nat) (seqZ 0 4)
  else None.

(** [seen[i]] after the counting loop of [find_pairs_trips_quads], for
    cards that [Card.__init__] accepts; the values read by [enumerate] that
    can hold a count are 2 to 14. *)
Definition seen (cards : list Card.t) (i : Z) : nat :=
  length (filter (λ c, Card.value c = i) cards).

Definition values_seen (n : nat) (cards : list Card.t) : list Z :=
  filter (λ i, seen cards i = n) (seqZ 2 13).

Definition find_pairs_trips_quads (cards : list Card.t)
  : list Z * list Z * list Z :=
  (values_seen 2 cards, values_seen 3 cards, values_seen 4 cards).

Definition __score_flush (cards : list Card.t) : Q := 0%Q.

Definition __score_high_card (cards : list Card.t) : result Q :=
  c ← py_index cards 0; mret (Card.score_value c).

Definition __score_pairs (pairs : list Z) : Q := 0%Q.

Definition __score_full_house (trips pairs : list Z) : Q := 0%Q.

(** The second half of [__score_hand], reached when the hand is neither a
    flush nor a straight. *)
Definition score_of_a_kind (cards : list Card.t) : result Q :=
  let '(pairs, trips, quads) := find_pairs_trips_quads cards in
  high ← __score_high_card cards;
  let score := (HIGH_CARD + high)%Q in
  let score :=
    if py_truthy pairs then (PAIR + __score_pairs pairs)%Q else score in
  let score :=
    if (1 <? length pairs)%nat
    then (TWO_PAIR + __score_pairs pairs)%Q else score in
  let score :=
    if py_truthy trips then (TRIPS + __score_pairs trips)%Q else score in
  let score :=
    if py_truthy trips && py_truthy pairs
    then (FULL_HOUSE + __score_full_house trips pairs)%Q else score in
  let score :=
    if py_truthy quads then (QUADS + __score_pairs pairs)%Q else score in
  mret score.

Definition __score_hand (cards : list Card.t) : result Q :=
  let score := NO_SCORE in
  let score :=
    match select_flush_suit cards with
    | Some _ => (FLUSH + __score_flush cards)%Q
    | None => score
    end in
  score ←
    (if is_straight cards
     then
       let score :=
         if Qeq_bool score FLUSH then STRAIGHT_FLUSH else STRAIGHT in
       high ← __score_high_card cards;
       mret (score + high)%Q
     else mret score);
  if Qlt_bool NO_SCORE score then mret score
  else score_of_a_kind cards.

(** [score_hand]: the score of a 5-card hand, [NO_SCORE] for anything
    else. *)
Definition score_hand (cards : list Card.t) : result Q :=
  if negb (py_truthy cards) || negb (length cards =? HAND_LENGTH)%nat
  then mret NO_SCORE
  else __score_hand (__sort_hand cards).

(** The loop of [find_hand] over the 5-card combinations. *)
Fixpoint best_of (hands : list (list Card.t)) (best_hand_score : Q)
    (best_hand : option (list Card.t)) : result (option (list Card.t)) :=
  match hands with
  | [] => mret best_hand
  | hand :: rest =>
      score ← __score_hand hand;
      if Qlt_bool best_hand_score score
      then best_of rest score (Some hand)
      else best_of rest best_hand_score best_hand
  end.

(** [find_hand]: the best hand of length [HAND_LENGTH], [None] when there
    are too few cards. *)
Definition find_hand (cards : list Card.t) : result (option (list Card.t)) :=
  if negb (py_truthy cards) || (length cards <? HAND_LENGTH)%nat
  then mret None
  else if (length cards =? HAND_LENGTH)%nat then mret (Some cards)
  else best_of (combinations (__sort_hand cards) HAND_LENGTH) NO_SCORE None.

End HandBuilder.

Module Hand.

Record t : Set := mk { high : Card.t; low : Card.t; _score : Q }.

Definition init (card1 card2 : Card.t) : t :=
  if Card.value card1 >? Card.value card2
  then mk card1 card2 HandBuilder.NO_SCORE
  else mk card2 card1 HandBuilder.NO_SCORE.

(** [score]: [None] while no score has been stored. *)
Definition score (self : t) : option Q :=
  if Qeq_bool (_score self) HandBuilder.NO_SCORE then None
  else Some (_score self).

(** [set_score]: [if score and score > NO_SCORE: self._score = score];
    a number is false when it is zero. *)
Definition set_score (self : t) (score : Q) : t :=
  if negb (Qeq_bool score 0) && Qlt_bool HandBuilder.NO_SCORE score
  then mk (high self) (low self) score
  else self.

Definition is_pair (self : t) : bool :=
  Card.value (high self) =? Card.value (low self).

Definition is_suited (self : t) : bool :=
  Card.suit (high self) =? Card.suit (low self).

Definition card_gap (self : t) : Z :=
  (Card.value (high self) - Card.value (low self)) - 1.

Definition is_connected (self : t) : bool := card_gap self =? 0.

End Hand.

(** ** [standalone/preflop_hand_wins.py] *)

Module PreflopCalculator.

Definition TRIES_PER_HAND : nat := 10.

(** The comparison that ends [try_hand]: the share of the pot won with
    our score against theirs.  The two scores come from a shuffled deck
    and from [pokeher.handscore], which is another module; they are
    inputs here. *)
Definition try_hand (scores : Q * Q) : Q :=
  let '(our_score, their_score) := scores in
  if Qlt_bool their_score our_score then 1%Q
  else if Qeq_bool our_score their_score then (1 # 2)%Q
  else 0%Q.

(** [percentage], under [from __future__ import division]. *)
Definition percentage (num denom : Q) : result Q :=
  if Qeq_bool denom 0 then Raise ZeroDivisionError
  else mret ((num / denom) * 100)%Q.

(** The inner loop of [run] for one hand: [deal hand i] is the pair of
    scores that the [i]-th shuffle produces. *)
Definition hand_wins (deal : list Card.t → nat → Q * Q)
    (hand : list Card.t) : Q :=
  foldl (λ wins i, (wins + try_hand (deal hand i))%Q) 0%Q
        (seq 0 TRIES_PER_HAND).

(** The outer loop of [run]: one entry of [self.wins] per 2-card hand, in
    the order the entries are stored. *)
Fixpoint run_hands (deal : list Card.t → nat → Q * Q)
    (hands : list (list Card.t)) : result (list (list Card.t * Q)) :=
  match hands with
  | [] => mret []
  | hand :: rest =>
      percent_pots_won ←
        percentage (hand_wins deal hand)
                   (inject_Z (Z.of_nat TRIES_PER_HAND));
      wins ← run_hands deal rest;
      mret ((hand, percent_pots_won) :: wins)
  end.

(** [run], for the deck [full_deck] that [Card.full_deck()] returns: the
    entries of [self.wins] when it ends. *)
Definition run (full_deck : list Card.t) (deal : list Card.t → nat → Q * Q)
  : result (list (list Card.t * Q)) :=
  run_hands deal (combinations full_deck 2).

End PreflopCalculator.

(** ** [arena/betting.py] *)

Module Blinds.

Record t : Set := mk { small_blind : Z; big_blind : Z }.

Definition init (small_blind big_blind : Z) : result t :=
  if big_blind >? small_blind then mret (mk small_blind big_blind)
  else Raise AssertionError.

End Blinds.

Module BlindManager.

Record t : Set := mk {
  hands_per_level : Z;
  hands_this_level : Z;
  bots : list string;
  small_blinds_played : list Z;
  sb_index : Z;
  blind : Blinds.t
}.

(** [__init__]; [Blinds(10, 20)] passes its assertion. *)
Definition init (hands_per_level : Z) (bots : list string) : t :=
  mk hands_per_level 0 bots (replicate (length bots) 0) 0 (Blinds.mk 10 20).

(** [i % n] for [n = len(self.bots)]. *)
Definition wrap (n i : Z) : result Z :=
  if n =? 0 then Raise ZeroDivisionError else mret (i mod n).

Definition __wrap_index (self : t) (i : Z) : result Z :=
  wrap (Z.of_nat (length (bots self))) i.

Definition next_sb (self : t) : result (Z * string) :=
  bot ← py_index (bots self) (sb_index self);
  mret (Blinds.small_blind (blind self), bot).

Definition next_bb (self : t) : result (Z * string) :=
  index ← __wrap_index self (sb_index self + 1);
  bot ← py_index (bots self) index;
  mret (Blinds.big_blind (blind self), bot).

Definition __check_raise_blinds (self : t) : t :=
  if hands_this_level self >=? hands_per_level self
  then mk (hands_per_level self) 0 (bots self) (small_blinds_played self)
          (sb_index self) (blind self)
  else self.

Definition finish_hand (self : t) : result t :=
  index ← __wrap_index self (sb_index self + 1);
  mret (__check_raise_blinds
          (mk (hands_per_level self) (hands_this_level self + 1)
              (bots self) (small_blinds_played self) index (blind self))).

(** The loop of [eliminate_player] over [enumerate(self.bots)]: [n] is the
    length of the whole list, [i] the index of the head of [todo].  It
    returns the list with the eliminated seats set to [None], and the new
    small-blind index. *)
Fixpoint eliminate_loop (name : string) (n i : Z)
    (todo : list (option string)) (sb_index : Z)
  : result (list (option string) * Z) :=
  match todo with
  | [] => mret ([], sb_index)
  | player :: rest =>
      if bool_decide (player = Some name)
      then
        sb_index ←
          (if sb_index >? i then wrap n (sb_index - 1) else mret sb_index);
        '(rest, sb_index) ← eliminate_loop name n (i + 1) rest sb_index;
        mret (None :: rest, sb_index)
      else
        '(rest, sb_index) ← eliminate_loop name n (i + 1) rest sb_index;
        mret (player :: rest, sb_index)
  end.

Definition eliminate_player (self : t) (name : string) : result t :=
  '(marked, index) ←
    eliminate_loop name (Z.of_nat (length (bots self))) 0
                   (Some <$> bots self) (sb_index self);
  mret (mk (hands_per_level self) (hands_this_level self)
           (omap id marked) (small_blinds_played self) index (blind self)).

End BlindManager.

Module NoBetLimit.

Definition check_bet (pot bet : Z) : bool := bet >? 0.

End NoBetLimit.

Module BettingRound.

Record t : Type := mk {
  pot : Z;
  sidepot : Z;
  bots : list string;
  bets : gmap string Z;
  high_better : option string;
  next_better_index : Z
}.

Definition with_pot (v : Z) (self : t) : t :=
  mk v (sidepot self) (bots self) (bets self) (high_better self)
     (next_better_index self).

Definition with_sidepot (v : Z) (self : t) : t :=
  mk (pot self) v (bots self) (bets self) (high_better self)
     (next_better_index self).

Definition with_bets (v : gmap string Z) (self : t) : t :=
  mk (pot self) (sidepot self) (bots self) v (high_better self)
     (next_better_index self).

Definition with_high_better (v : option string) (self : t) : t :=
  mk (pot self) (sidepot self) (bots self) (bets self) v
     (next_better_index self).

Definition with_next_better_index (v : Z) (self : t) : t :=
  mk (pot self) (sidepot self) (bots self) (bets self) (high_better self) v.

Definition __set_better_index (index : Z) (self : t) : t :=
  if next_better_index self =? -1
  then with_next_better_index index self
  else self.

Definition __process_bet (bet : Z) (player : string) (is_blind : bool)
    (self : t) : t :=
  let self :=
    if bet >? sidepot self
    then
      let self := with_sidepot bet self in
      if negb is_blind then with_high_better (Some player) self else self
    else self in
  with_bets (<[player := bet]> (bets self)) self.

(** The loop of [__init__] over [enumerate(self.bots)], from index [i]. *)
Fixpoint init_loop (i : Z) (todo : list string) (self : t) : t :=
  match todo with
  | [] => self
  | bot :: rest =>
      let self :=
        match bets self !! bot with
        | Some bet =>
            __process_bet bet bot true (with_pot (pot self + bet) self)
        | None =>
            __set_better_index i (with_bets (<[bot := 0]> (bets self)) self)
        end in
      init_loop (i + 1) rest self
  end.

Definition init (bots : list string) (bets : gmap string Z) (pot : Z) : t :=
  __set_better_index 0
    (init_loop 0 bots (mk pot 0 bots bets None (-1))).

Definition is_staked (self : t) (player : string) : bool :=
  bool_decide (is_Some (bets self !! player)).

Definition can_bet (self : t) (player : string) : bool :=
  is_staked self player
  && negb (bool_decide (Some player = high_better self)).

(** [next_better]: the next bettor, or [None] if the round is over. *)
Definition next_better (self : t) : result (option string) :=
  next ← py_index (bots self) (next_better_index self);
  mret (if can_bet self next then Some next else None).

(** [post_bet]: [true] when the bet stands, [false] when the player has
    folded.  The state is returned next to the answer. *)
Definition post_bet (player : string) (bet : Z) (self : t)
  : result (bool * t) :=
  next ← next_better self;
  if negb (bool_decide (next = Some player)) then Raise AssertionError
  else
    index ←
      (if Z.of_nat (length (bots self)) =? 0 then Raise ZeroDivisionError
       else mret ((next_better_index self + 1)
                    mod Z.of_nat (length (bots self))));
    let self := with_next_better_index index self in
    previous ←
      (match bets self !! player with
       | Some b => mret b
       | None => Raise KeyError
       end);
    let current_bet := previous + bet in
    if current_bet >=? sidepot self
    then mret (true,
               __process_bet current_bet player false
                             (with_pot (pot self + bet) self))
    else mret (false, with_bets (delete player (bets self)) self).

Definition say_pot (self : t) : Z * Z := (pot self, sidepot self).

End BettingRound.

(** ** Vocabulary of the statements *)

(** The category constant that [__score_hand] adds for a sorted hand: the
    branch of the source that assigns the returned score. *)
Definition category (cards : list Card.t) : Q :=
  if HandBuilder.is_straight cards
  then match HandBuilder.select_flush_suit cards with
       | Some _ => HandBuilder.STRAIGHT_FLUSH
       | None => HandBuilder.STRAIGHT
       end
  else match HandBuilder.select_flush_suit cards with
       | Some _ => HandBuilder.FLUSH
       | None =>
           let '(pairs, trips, quads) :=
             HandBuilder.find_pairs_trips_quads cards in
           if py_truthy quads then HandBuilder.QUADS
           else if py_truthy trips && py_truthy pairs
                then HandBuilder.FULL_HOUSE
           else if py_truthy trips then HandBuilder.TRIPS
           else if (1 <? length pairs)%nat then HandBuilder.TWO_PAIR
           else if py_truthy pairs then HandBuilder.PAIR
           else HandBuilder.HIGH_CARD
       end.

(** The categories whose score includes [__score_high_card]. *)
Definition uses_high_card (cat : Q) : bool :=
  Qeq_bool cat HandBuilder.HIGH_CARD
  || Qeq_bool cat HandBuilder.STRAIGHT
  || Qeq_bool cat HandBuilder.STRAIGHT_FLUSH.

(** The categories whose score goes through [__score_pairs] or
    [__score_full_house]. *)
Definition uses_score_pairs (cat : Q) : bool :=
  Qeq_bool cat HandBuilder.PAIR
  || Qeq_bool cat HandBuilder.TWO_PAIR
  || Qeq_bool cat HandBuilder.TRIPS
  || Qeq_bool cat HandBuilder.FULL_HOUSE
  || Qeq_bool cat HandBuilder.QUADS.

(** The highest card value of a hand. *)
Definition top_value (cards : list Card.t) : Z :=
  match cards with
  | [] => 0
  | c :: rest => foldr Z.max (Card.value c) (Card.value <$> rest)
  end.

(** The forced bet of a player, [0] for a player who posted none. *)
Definition forced (bets : gmap string Z) (player : string) : Z :=
  default 0 (bets !! player).

Definition forced_total (bets : gmap string Z) (bots : list string) : Z :=
  foldr (λ player acc, forced bets player + acc) 0 bots.

(** The sum of all the amounts of a mapping of bets. *)
Definition bets_total (bets : gmap string Z) : Z :=
  map_fold (λ _ bet acc, bet + acc) 0 bets.

(** A hand in the order [__sort_hand] aims at: no card is below the card
    that follows it. *)
Definition descending (cards : list Card.t) : Prop :=
  Sorted (λ a b, Card.lt a b = false) cards.

(** No staked player has bet more than the side pot. *)
Definition bets_capped (round : BettingRound.t) : Prop :=
  ∀ player bet,
    BettingRound.bets round !! player = Some bet →
    bet <= BettingRound.sidepot round.

(** The sum of the amounts whose post was answered [True]. *)
Fixpoint accepted_total (posts : list (string * Z)) (answers : list bool)
  : Z :=
  match posts, answers with
  | (_, bet) :: posts, accepted :: answers =>
      (if accepted then bet else 0) + accepted_total posts answers
  | _, _ => 0
  end.

(** [finish_hand], called after each of [n] hands. *)
Fixpoint finish_hands (n : nat) (self : BlindManager.t)
  : result BlindManager.t :=
  match n with
  | O => mret self
  | S n => self ← BlindManager.finish_hand self; finish_hands n self
  end.

(** ** Hands used in the examples *)

Module Examples.
Import Constants.

Definition broadway : list Card.t :=
  [Card.mk 10 DIAMONDS; Card.mk ACE HEARTS; Card.mk KING SPADES;
   Card.mk QUEEN CLUBS; Card.mk JACK CLUBS].

Definition nine_high_flush : list Card.t :=
  [Card.mk 9 HEARTS; Card.mk 2 HEARTS; Card.mk 4 HEARTS;
   Card.mk 6 HEARTS; Card.mk 8 HEARTS].

Definition ace_high : list Card.t :=
  [Card.mk ACE SPADES; Card.mk 9 HEARTS; Card.mk 7 CLUBS;
   Card.mk 5 DIAMONDS; Card.mk 3 CLUBS].

Definition king_high : list Card.t :=
  [Card.mk 9 HEARTS; Card.mk KING SPADES; Card.mk 7 CLUBS;
   Card.mk 5 DIAMONDS; Card.mk 3 CLUBS].

Definition pair_of_twos : list Card.t :=
  [Card.mk 2 HEARTS; Card.mk 2 SPADES; Card.mk 9 HEARTS;
   Card.mk 7 CLUBS; Card.mk 5 DIAMONDS].

Definition pair_of_aces : list Card.t :=
  [Card.mk ACE HEARTS; Card.mk ACE SPADES; Card.mk 9 HEARTS;
   Card.mk 7 CLUBS; Card.mk 5 DIAMONDS].

Definition two_cards : list Card.t :=
  [Card.mk ACE HEARTS; Card.mk ACE SPADES].

(** A street of betting: the posts are made in turn, the answers of
    [post_bet] are collected. *)
Fixpoint play (posts : list (string * Z)) (round : BettingRound.t)
  : result (list bool * BettingRound.t) :=
  match posts with
  | [] => mret ([], round)
  | (player, bet) :: rest =>
      '(accepted, round) ← BettingRound.post_bet player bet round;
      '(answers, round) ← play rest round;
      mret (accepted :: answers, round)
  end.

Definition blinds_posted : gmap string Z := <["A" := 10]> (<["B" := 20]> ∅).

Definition four_handed : BettingRound.t :=
  BettingRound.init ["A"; "B"; "C"; "D"] blinds_posted 0.

Definition all_called : gmap string Z :=
  <["A" := 20]> (<["B" := 20]> (<["C" := 20]> (<["D" := 20]> ∅))).

(** The round when C, D and A have called and B is next. *)
Definition big_blind_to_act : BettingRound.t :=
  BettingRound.mk 80 20 ["A"; "B"; "C"; "D"] all_called None 1.

(** The same round when B has checked. *)
Definition big_blind_checked : BettingRound.t :=
  BettingRound.mk 80 20 ["A"; "B"; "C"; "D"] all_called None 2.

(** Three players, C has raised to 40 and A is next. *)
Definition facing_a_raise : BettingRound.t :=
  BettingRound.mk 70 40 ["A"; "B"; "C"]
    (<["A" := 10]> (<["B" := 20]> (<["C" := 40]> ∅))) (Some "C") 0.

(** The same round when A has folded, and then when B has called. *)
Definition small_blind_folded : BettingRound.t :=
  BettingRound.mk 70 40 ["A"; "B"; "C"]
    (<["B" := 20]> (<["C" := 40]> ∅)) (Some "C") 1.

Definition big_blind_called : BettingRound.t :=
  BettingRound.mk 90 40 ["A"; "B"; "C"]
    (<["B" := 40]> (<["C" := 40]> ∅)) (Some "C") 2.

(** Two hole cards and a board of five. *)
Definition seven_cards : list Card.t :=
  [Card.mk 2 HEARTS; Card.mk KING SPADES; Card.mk 9 HEARTS;
   Card.mk 2 SPADES; Card.mk 7 CLUBS; Card.mk KING DIAMONDS;
   Card.mk 5 DIAMONDS].

(** Three players after two hands: the small blind is on the last seat. *)
Definition third_hand : BlindManager.t :=
  BlindManager.mk 5 2 ["A"; "B"; "C"] [0; 0; 0] 2 (Blinds.mk 10 20).

End Examples.

(** ** Numbers and results *)

Lemma Qlt_bool_iff (x y : Q) : Qlt_bool x y = true ↔ (x < y)%Q.
Proof.
  unfold Qlt_bool. rewrite negb_true_iff.
  destruct (Qle_bool y x) eqn:E.
  - apply Qle_bool_iff in E. split; [discriminate |].
    intros H. exfalso. exact (Qlt_not_le _ _ H E).
  - split; [| reflexivity]. intros _.
    apply Qnot_le_lt. intros H. apply Qle_bool_iff in H. congruence.
Qed.

Lemma Qlt_bool_false (x y : Q) : Qlt_bool x y = false ↔ (y <= x)%Q.
Proof.
  unfold Qlt_bool. rewrite negb_false_iff. apply Qle_bool_iff.
Qed.

Lemma py_index_nat {A : Type} (l : list A) (k : nat) (x : A) :
  l !! k = Some x → py_index l (Z.of_nat k) = Ok x.
Proof.
  intros H. pose proof (lookup_lt_Some _ _ _ H) as Hk.
  unfold py_index. cbv zeta.
  assert ((Z.of_nat k <? 0) = false) as E by (apply Z.ltb_ge; lia).
  rewrite E. cbv iota. rewrite E.
  assert ((Z.of_nat (length l) <=? Z.of_nat k) = false) as ->
    by (apply Z.leb_gt; lia).
  cbn [orb]. rewrite Nat2Z.id, H. reflexivity.
Qed.

Lemma py_index_0 {A : Type} (x : A) (l : list A) : py_index (x :: l) 0 = Ok x.
Proof. apply (py_index_nat (x :: l) 0 x). reflexivity. Qed.

(** ** The hand scorer *)

Section HandScores.
Import HandBuilder.

(** C7. With fewer than five cards [find_hand] returns [None], and
    [score_hand] returns [NO_SCORE] for every card list whose length is
    not five; neither raises. *)
Theorem short_input_is_rejected (cards : list Card.t) :
  ((length cards < HAND_LENGTH)%nat → find_hand cards = Ok None)
  ∧ (length cards ≠ HAND_LENGTH → score_hand cards = Ok NO_SCORE).
Proof.
  split; intros H.
  - unfold find_hand.
    apply Nat.ltb_lt in H. rewrite H, orb_true_r. reflexivity.
  - unfold score_hand.
    apply Nat.eqb_neq in H. rewrite H, orb_true_r. reflexivity.
Qed.

Lemma short_input_is_rejected_witness :
  find_hand Examples.two_cards = Ok None
  ∧ score_hand Examples.two_cards = Ok NO_SCORE
  ∧ score_hand (Examples.two_cards ++ Examples.broadway) = Ok NO_SCORE.
Proof.
  split; [| split].
  - apply (short_input_is_rejected Examples.two_cards).
    unfold HAND_LENGTH. simpl. lia.
  - apply (short_input_is_rejected Examples.two_cards).
    unfold HAND_LENGTH. simpl. lia.
  - apply (short_input_is_rejected (Examples.two_cards ++ Examples.broadway)).
    unfold HAND_LENGTH. simpl. lia.
Defined.

(** *** Sorting *)

Lemma insert_desc_Permutation (c : Card.t) (l : list Card.t) :
  insert_desc c l ≡ₚ c :: l.
Proof.
  induction l as [| d l IH]; cbn [insert_desc]; [reflexivity |].
  destruct (Card.lt c d); [| reflexivity].
  rewrite IH. apply Permutation_swap.
Qed.

Lemma sort_hand_Permutation (cards : list Card.t) :
  __sort_hand cards ≡ₚ cards.
Proof.
  unfold __sort_hand.
  induction cards as [| c cards IH]; cbn [foldr]; [reflexivity |].
  rewrite insert_desc_Permutation, IH. reflexivity.
Qed.

Lemma foldr_max_cons (a x : Z) (l : list Z) :
  foldr Z.max a (x :: l) = Z.max a (foldr Z.max x l).
Proof.
  revert a x. induction l as [| y l IH]; intros a x; cbn [foldr].
  - lia.
  - cbn [foldr] in IH. rewrite (IH a y), (IH x y). lia.
Qed.

Lemma Card_lt_value (c d : Card.t) :
  (Card.lt c d = true → Card.value c <= Card.value d)
  ∧ (Card.lt c d = false → Card.value d <= Card.value c).
Proof.
  unfold Card.lt. split; intros H.
  - apply orb_true_iff in H as [H | H].
    + apply Z.ltb_lt in H. lia.
    + apply andb_true_iff in H as [H _]. apply Z.eqb_eq in H. lia.
  - apply orb_false_iff in H as [H _]. apply Z.ltb_ge in H. lia.
Qed.

(** The sorted hand starts with a card of the highest value. *)
Lemma sort_hand_head (c : Card.t) (cards : list Card.t) :
  ∃ d rest, __sort_hand (c :: cards) = d :: rest
            ∧ Card.value d = top_value (c :: cards).
Proof.
  revert c. induction cards as [| c' cards IH]; intros c.
  - exists c, []. split; reflexivity.
  - destruct (IH c') as (d & rest & Hs & Hd).
    unfold __sort_hand in *. cbn [foldr] in *. rewrite Hs.
    cbn [insert_desc]. unfold top_value in *.
    cbn [fmap list_fmap] in *.
    rewrite foldr_max_cons, <- Hd.
    destruct (Card_lt_value c d) as [Ht Hf].
    destruct (Card.lt c d).
    + exists d, (insert_desc c rest). split; [reflexivity |].
      specialize (Ht eq_refl). lia.
    + exists c, (d :: rest). split; [reflexivity |].
      specialize (Hf eq_refl). lia.
Qed.

(** *** The tiebreak of a card *)

Lemma score_value_pos (c : Card.t) : Card.ok c → (0 < Card.score_value c)%Q.
Proof.
  intros [[Hv _] _]. unfold Card.score_value.
  assert (0 < inject_Z (Card.value c))%Q as Hq.
  { change 0%Q with (inject_Z 0). rewrite <- Zlt_Qlt. lia. }
  destruct (_ <? _); lra.
Qed.

Lemma score_value_mono (c d : Card.t) :
  Card.value c < Card.value d →
  (Card.score_value c < Card.score_value d)%Q.
Proof.
  intros H. unfold Card.score_value.
  assert (inject_Z (Card.value c) < inject_Z (Card.value d))%Q as Hq
    by (rewrite <- Zlt_Qlt; exact H).
  destruct (Z.ltb_spec (Card.value c) 10) as [Hc | Hc];
    destruct (Z.ltb_spec (Card.value d) 10) as [Hd | Hd].
  - lra.
  - assert (inject_Z (Card.value c) < inject_Z 10)%Q as H1
      by (rewrite <- Zlt_Qlt; lia).
    assert (inject_Z 10 <= inject_Z (Card.value d))%Q as H2
      by (rewrite <- Zle_Qle; lia).
    change (inject_Z 10) with 10%Q in *. lra.
  - lia.
  - lra.
Qed.

(** *** The score of a hand is its category plus its tiebreak *)

Lemma score_hand_internal_split (c : Card.t) (rest : list Card.t) :
  Card.ok c →
  ∃ x, __score_hand (c :: rest) = Ok x
       ∧ (x == category (c :: rest)
               + (if uses_high_card (category (c :: rest))
                  then Card.score_value c else 0))%Q.
Proof.
  intros Hok. pose proof (score_value_pos c Hok) as Hpos.
  unfold __score_hand, category, score_of_a_kind, __score_high_card.
  rewrite py_index_0.
  destruct (select_flush_suit (c :: rest)) as [s |];
    destruct (is_straight (c :: rest)) eqn:Es.
  - cbn [mbind result_bind mret result_ret].
    replace (Qeq_bool (FLUSH + __score_flush (c :: rest)) FLUSH)
      with true by reflexivity.
    assert (Qlt_bool NO_SCORE (STRAIGHT_FLUSH + Card.score_value c) = true)
      as -> by (apply Qlt_bool_iff; unfold NO_SCORE, STRAIGHT_FLUSH; lra).
    eexists. split; [reflexivity |].
    replace (uses_high_card STRAIGHT_FLUSH) with true by reflexivity.
    reflexivity.
  - cbn [mbind result_bind mret result_ret].
    replace (Qlt_bool NO_SCORE (FLUSH + __score_flush (c :: rest)))
      with true by reflexivity.
    eexists. split; [reflexivity |].
    replace (uses_high_card FLUSH) with false by reflexivity.
    reflexivity.
  - cbn [mbind result_bind mret result_ret].
    replace (Qeq_bool NO_SCORE FLUSH) with false by reflexivity.
    assert (Qlt_bool NO_SCORE (STRAIGHT + Card.score_value c) = true)
      as -> by (apply Qlt_bool_iff; unfold NO_SCORE, STRAIGHT; lra).
    eexists. split; [reflexivity |].
    replace (uses_high_card STRAIGHT) with true by reflexivity.
    reflexivity.
  - cbn [mbind result_bind mret result_ret].
    replace (Qlt_bool NO_SCORE NO_SCORE) with false by reflexivity.
    destruct (find_pairs_trips_quads (c :: rest)) as [[pairs trips] quads].
    cbn [mbind result_bind mret result_ret].
    destruct pairs as [| p1 [| p2 pairs]];
      destruct trips as [| t1 trips];
      destruct quads as [| q1 quads];
      (eexists; split; [reflexivity |]).
    all: unfold __score_pairs, __score_full_house.
    all: match goal with
         | |- context [uses_high_card ?k] =>
             let b := eval vm_compute in (uses_high_card k) in
             change (uses_high_card k) with b
         end.
    all: reflexivity.
Qed.

Lemma score_hand_five (cards : list Card.t) :
  length cards = HAND_LENGTH → Forall Card.ok cards →
  ∃ d rest x,
    __sort_hand cards = d :: rest
    ∧ Card.value d = top_value cards
    ∧ score_hand cards = Ok x
    ∧ (x == category (d :: rest)
            + (if uses_high_card (category (d :: rest))
               then Card.score_value d else 0))%Q.
Proof.
  intros Hlen Hok. destruct cards as [| c cards]; [discriminate Hlen |].
  destruct (sort_hand_head c cards) as (d & rest & Hs & Hd).
  assert (Card.ok d) as Hd_ok.
  { assert (Forall Card.ok (d :: rest)) as H.
    { rewrite <- Hs. rewrite sort_hand_Permutation. exact Hok. }
    apply Forall_cons in H. tauto. }
  destruct (score_hand_internal_split d rest Hd_ok) as (x & Hx & Hq).
  exists d, rest, x. repeat split; try assumption.
  unfold score_hand. rewrite Hlen, Nat.eqb_refl.
  cbn [py_truthy negb orb]. rewrite Hs. exact Hx.
Qed.




Lemma uses_score_pairs_no_high_card (cat : Q) :
  uses_score_pairs cat = true → uses_high_card cat = false.
Proof.
  unfold uses_score_pairs, uses_high_card. intros H.
  repeat (apply orb_true_iff in H as [H | H]);
    apply Qeq_bool_iff in H; rewrite H; reflexivity.
Qed.

(** C3, as the code has it.  Two valid five-card hands of one category:
    in the high-card, straight and straight-flush categories the hand
    with the higher top card scores strictly higher; in the pair, two-pair,
    trips, full-house and quads categories both hands score the bare
    category number. *)
Theorem score_within_category (h1 h2 : list Card.t) :
  length h1 = HAND_LENGTH → length h2 = HAND_LENGTH →
  Forall Card.ok h1 → Forall Card.ok h2 →
  category (__sort_hand h1) = category (__sort_hand h2) →
  ∃ x1 x2,
    score_hand h1 = Ok x1 ∧ score_hand h2 = Ok x2
    ∧ (uses_high_card (category (__sort_hand h1)) = true →
       top_value h2 < top_value h1 → (x2 < x1)%Q)
    ∧ (uses_score_pairs (category (__sort_hand h1)) = true →
       (x1 == category (__sort_hand h1))%Q
       ∧ (x2 == category (__sort_hand h1))%Q).
Proof.
  intros L1 L2 O1 O2 Hcat.
  destruct (score_hand_five h1 L1 O1) as (d1 & r1 & x1 & S1 & T1 & E1 & Q1).
  destruct (score_hand_five h2 L2 O2) as (d2 & r2 & x2 & S2 & T2 & E2 & Q2).
  rewrite S1, S2 in Hcat. rewrite S1. rewrite <- Hcat in Q2.
  exists x1, x2. split; [exact E1 |]. split; [exact E2 |]. split.
  - intros Hu Htop. rewrite Hu in Q1, Q2.
    rewrite <- T1, <- T2 in Htop.
    pose proof (score_value_mono d2 d1 Htop) as Hm.
    rewrite Q1, Q2. lra.
  - intros Hu. apply uses_score_pairs_no_high_card in Hu.
    rewrite Hu in Q1, Q2. split.
    + rewrite Q1. lra.
    + rewrite Q2. lra.
Qed.

Lemma examples_ok :
  Forall Card.ok Examples.ace_high ∧ Forall Card.ok Examples.king_high
  ∧ Forall Card.ok Examples.pair_of_aces
  ∧ Forall Card.ok Examples.pair_of_twos
  ∧ Forall Card.ok Examples.broadway
  ∧ Forall Card.ok Examples.nine_high_flush.
Proof.
  repeat apply conj;
    repeat (apply Forall_cons_2;
            [unfold Card.ok; cbv; repeat split; congruence |]);
    apply Forall_nil_2.
Defined.

Lemma score_within_category_witness :
  (∃ x1 x2, score_hand Examples.ace_high = Ok x1
            ∧ score_hand Examples.king_high = Ok x2 ∧ (x2 < x1)%Q)
  ∧ (∃ x1 x2, score_hand Examples.pair_of_aces = Ok x1
              ∧ score_hand Examples.pair_of_twos = Ok x2
              ∧ (x1 == PAIR)%Q ∧ (x2 == PAIR)%Q).
Proof.
  destruct examples_ok as (Oa & Ok' & Opa & Opt & _).
  split.
  - destruct (score_within_category Examples.ace_high Examples.king_high
                eq_refl eq_refl Oa Ok' eq_refl)
      as (x1 & x2 & H1 & H2 & Hlt & _).
    exists x1, x2. split; [exact H1 |]. split; [exact H2 |].
    apply Hlt; [reflexivity | vm_compute; reflexivity].
  - destruct (score_within_category
                Examples.pair_of_aces Examples.pair_of_twos
                eq_refl eq_refl Opa Opt eq_refl)
      as (x1 & x2 & H1 & H2 & _ & Heq).
    exists x1, x2. split; [exact H1 |]. split; [exact H2 |].
    apply (Heq eq_refl).
Defined.

(** C3, as the claim has it, fails: two pair hands that differ only in
    the rank of the pair, aces against twos, receive the same score. *)
Lemma higher_pair_scores_the_same :
  category (__sort_hand Examples.pair_of_aces) = PAIR
  ∧ category (__sort_hand Examples.pair_of_twos) = PAIR
  ∧ find_pairs_trips_quads (__sort_hand Examples.pair_of_aces)
    = ([14], [], [])
  ∧ find_pairs_trips_quads (__sort_hand Examples.pair_of_twos)
    = ([2], [], [])
  ∧ score_hand Examples.pair_of_aces = Ok 1%Q
  ∧ score_hand Examples.pair_of_twos = Ok 1%Q
  ∧ ¬ (1 < 1)%Q.
Proof.
  repeat split; try reflexivity. intros H. discriminate H.
Qed.

(** C1 at the failing inputs.  An ace-high straight scores [4 + 1.4],
    above the [5] of a flush, and an ace-high hand with no pair scores
    [0 + 1.4], above the [1] of a pair: the weaker category wins. *)
Theorem weaker_category_outscores_stronger :
  category (__sort_hand Examples.broadway) = STRAIGHT
  ∧ category (__sort_hand Examples.nine_high_flush) = FLUSH
  ∧ score_hand Examples.broadway = Ok (54 # 10)%Q
  ∧ score_hand Examples.nine_high_flush = Ok 5%Q
  ∧ (5 < 54 # 10)%Q
  ∧ category (__sort_hand Examples.ace_high) = HIGH_CARD
  ∧ category (__sort_hand Examples.pair_of_twos) = PAIR
  ∧ score_hand Examples.ace_high = Ok (14 # 10)%Q
  ∧ score_hand Examples.pair_of_twos = Ok 1%Q
  ∧ (1 < 14 # 10)%Q.
Proof.
  repeat split; reflexivity.
Qed.

End HandScores.

(** ** The memoized score of a [Hand] *)

Section HandScore.

(** C8, as the code has it.  A new hand has no score.  [set_score] with
    [0], or with a value not above [NO_SCORE = -1], changes nothing; with
    any other value it stores that value, whatever was stored before. *)
Theorem set_score_stores_every_accepted_value
    (card1 card2 : Card.t) (h : Hand.t) (s : Q) :
  Hand.score (Hand.init card1 card2) = None
  ∧ ((s == 0 ∨ s <= -1)%Q → Hand.set_score h s = h)
  ∧ ((¬ s == 0 ∧ -1 < s)%Q →
     Hand.set_score h s = Hand.mk (Hand.high h) (Hand.low h) s).
Proof.
  split; [| split].
  - unfold Hand.init. destruct (_ >? _); reflexivity.
  - intros [H | H]; unfold Hand.set_score.
    + apply Qeq_bool_iff in H. rewrite H. reflexivity.
    + apply (Qlt_bool_false HandBuilder.NO_SCORE s) in H.
      rewrite H, andb_false_r. reflexivity.
  - intros [H0 H1]. unfold Hand.set_score.
    apply (Qlt_bool_iff HandBuilder.NO_SCORE s) in H1. rewrite H1.
    destruct (Qeq_bool s 0) eqn:E; [| reflexivity].
    apply Qeq_bool_iff in E. contradiction.
Qed.

Lemma set_score_stores_every_accepted_value_witness :
  let h := Hand.init (Card.mk 14 2) (Card.mk 13 2) in
  Hand.set_score (Hand.set_score h 5) (-1) = Hand.set_score h 5
  ∧ Hand.set_score (Hand.set_score h 5) 7
    = Hand.mk (Card.mk 14 2) (Card.mk 13 2) 7.
Proof.
  intros h. split.
  - apply (set_score_stores_every_accepted_value
             (Card.mk 14 2) (Card.mk 13 2) (Hand.set_score h 5) (-1)).
    right. apply Qle_refl.
  - apply (set_score_stores_every_accepted_value
             (Card.mk 14 2) (Card.mk 13 2) (Hand.set_score h 5) 7).
    split; [intros H; inversion H | reflexivity].
Defined.

(** C8, as the claim has it, fails twice: a negative value above [-1] is
    stored, and a second positive score replaces the first. *)
Lemma set_score_is_not_write_once :
  let h := Hand.init (Card.mk 14 2) (Card.mk 13 2) in
  (-1 # 2 <= 0)%Q
  ∧ Hand.set_score h (-1 # 2) ≠ h
  ∧ Hand.score (Hand.set_score h (-1 # 2)) = Some (-1 # 2)%Q
  ∧ Hand.score (Hand.set_score h 5) = Some 5%Q
  ∧ Hand.score (Hand.set_score (Hand.set_score h 5) 7) = Some 7%Q.
Proof.
  intros h. split; [| split; [| split; [| split]]].
  - intros H. discriminate H.
  - intros H. discriminate H.
  - reflexivity.
  - reflexivity.
  - reflexivity.
Qed.

End HandScore.

(** ** The preflop table *)

Section Preflop.
Import PreflopCalculator.

Lemma try_hand_bounds (scores : Q * Q) : (0 <= try_hand scores <= 1)%Q.
Proof.
  destruct scores as [ours theirs]. unfold try_hand.
  destruct (Qlt_bool theirs ours); [lra |].
  destruct (Qeq_bool ours theirs); lra.
Qed.

Lemma foldl_wins_bounds (f : nat → Q) (tries : list nat) (wins : Q) :
  (∀ i, 0 <= f i <= 1)%Q →
  (wins <= foldl (λ wins i, wins + f i) wins tries
        <= wins + inject_Z (Z.of_nat (length tries)))%Q.
Proof.
  intros Hf. revert wins.
  induction tries as [| i tries IH]; intros wins; cbn [foldl length].
  - change (inject_Z (Z.of_nat 0)) with 0%Q. lra.
  - specialize (IH (wins + f i)%Q). specialize (Hf i).
    rewrite Nat2Z.inj_succ. unfold Z.succ. rewrite inject_Z_plus.
    change (inject_Z 1) with 1%Q. lra.
Qed.

Lemma hand_wins_bounds (deal : list Card.t → nat → Q * Q)
    (hand : list Card.t) :
  (0 <= hand_wins deal hand <= 10)%Q.
Proof.
  unfold hand_wins.
  pose proof (foldl_wins_bounds (λ i, try_hand (deal hand i))
                (seq 0 TRIES_PER_HAND) 0%Q
                (λ i, try_hand_bounds (deal hand i))) as H.
  cbv beta in H. rewrite length_seq in H.
  change (inject_Z (Z.of_nat TRIES_PER_HAND)) with 10%Q in H. lra.
Qed.

Lemma percent_pots_won_bounds (deal : list Card.t → nat → Q * Q)
    (hand : list Card.t) :
  ∃ p, percentage (hand_wins deal hand)
                  (inject_Z (Z.of_nat TRIES_PER_HAND)) = Ok p
       ∧ (0 <= p <= 100)%Q.
Proof.
  unfold percentage.
  change (Qeq_bool (inject_Z (Z.of_nat TRIES_PER_HAND)) 0) with false.
  eexists. split; [reflexivity |].
  pose proof (hand_wins_bounds deal hand) as H.
  unfold Qdiv.
  change (/ inject_Z (Z.of_nat TRIES_PER_HAND))%Q with (1 # 10)%Q. lra.
Qed.

Lemma run_hands_bounds (deal : list Card.t → nat → Q * Q)
    (hands : list (list Card.t)) :
  ∃ wins, run_hands deal hands = Ok wins
          ∧ Forall (λ entry, (0 <= entry.2 <= 100)%Q) wins
          ∧ wins.*1 = hands.
Proof.
  induction hands as [| hand hands IH]; cbn [run_hands].
  - exists []. repeat split. apply Forall_nil_2.
  - destruct (percent_pots_won_bounds deal hand) as (p & -> & Hp).
    destruct IH as (wins & -> & Hall & Hkeys).
    exists ((hand, p) :: wins). split; [reflexivity |]. split.
    + apply Forall_cons_2; assumption.
    + cbn. rewrite Hkeys. reflexivity.
Qed.

(** C9, as the code has it.  [run] stores one value for every two-card
    hand of the deck, and every stored value is a percentage, between 0
    and 100. *)
Theorem preflop_values_are_percentages
    (full_deck : list Card.t) (deal : list Card.t → nat → Q * Q) :
  ∃ wins, run full_deck deal = Ok wins
          ∧ Forall (λ entry, (0 <= entry.2 <= 100)%Q) wins
          ∧ wins.*1 = combinations full_deck 2.
Proof. apply run_hands_bounds. Qed.

(** C9, as the claim has it, fails: a hand that wins its ten tries is
    stored with the value 100, outside of [0, 1]. *)
Lemma preflop_value_above_one :
  ∃ v, run Examples.two_cards (λ _ _, (1, 0)%Q)
       = Ok [(Examples.two_cards, v)]
       ∧ (v == 100)%Q ∧ ¬ (0 <= v <= 1)%Q.
Proof.
  eexists. split; [vm_compute; reflexivity |]. split; [reflexivity |].
  intros [_ H]. apply H. reflexivity.
Qed.

End Preflop.

(** ** The betting round *)

Section Betting.
Import BettingRound.

Lemma py_index_Ok_nonempty {A : Type} (l : list A) (i : Z) (x : A) :
  py_index l i = Ok x → (Z.of_nat (length l) =? 0) = false.
Proof.
  destruct l as [| y l]; [| intros _; apply Z.eqb_neq; cbn; lia].
  unfold py_index. cbn [length]. cbv zeta.
  destruct (i <? 0) eqn:E.
  - assert ((i + Z.of_nat 0 <? 0) = true) as ->
      by (apply Z.ltb_lt; apply Z.ltb_lt in E; lia).
    discriminate.
  - rewrite E. assert ((Z.of_nat 0 <=? i) = true) as ->
      by (apply Z.leb_le; apply Z.ltb_ge in E; lia).
    discriminate.
Qed.

Lemma next_better_Some (self : t) (player : string) :
  next_better self = Ok (Some player) →
  (Z.of_nat (length (bots self)) =? 0) = false.
Proof.
  unfold next_better.
  destruct (py_index (bots self) (next_better_index self)) as [next | e] eqn:E;
    [| discriminate].
  intros _. exact (py_index_Ok_nonempty _ _ _ E).
Qed.

(** *** Construction *)

Lemma init_loop_cons (i : Z) (bot : string) (rest : list string) (self : t) :
  init_loop i (bot :: rest) self
  = init_loop (i + 1) rest (init_loop i [bot] self).
Proof. reflexivity. Qed.

(** One turn of the loop of [__init__]. *)
Lemma init_step (i : Z) (bot : string) (self : t) :
  let self' := init_loop i [bot] self in
  pot self' = pot self + forced (bets self) bot
  ∧ sidepot self' = match bets self !! bot with
                    | Some bet => Z.max (sidepot self) bet
                    | None => sidepot self
                    end
  ∧ high_better self' = high_better self
  ∧ bots self' = bots self
  ∧ bets self' = <[bot := forced (bets self) bot]> (bets self)
  ∧ next_better_index self'
    = match bets self !! bot with
      | Some _ => next_better_index self
      | None => if next_better_index self =? -1 then i
                else next_better_index self
      end.
Proof.
  cbn [init_loop]. unfold forced.
  destruct (bets self !! bot) as [bet |] eqn:E; cbn [default].
  - unfold __process_bet. cbn [sidepot with_pot negb].
    destruct (Z.gtb_spec bet (sidepot self)); cbn; repeat split; lia.
  - unfold __set_better_index. cbn [next_better_index with_bets].
    destruct (next_better_index self =? -1); cbn; repeat split; lia.
Qed.

Lemma init_step_bets_other (i : Z) (bot player : string) (self : t) :
  player ≠ bot →
  bets (init_loop i [bot] self) !! player = bets self !! player.
Proof.
  intros Hne. destruct (init_step i bot self) as (_ & _ & _ & _ & -> & _).
  apply lookup_insert_ne. congruence.
Qed.

Lemma init_loop_frame (i : Z) (todo : list string) (self : t) :
  high_better (init_loop i todo self) = high_better self
  ∧ bots (init_loop i todo self) = bots self.
Proof.
  revert i self. induction todo as [| bot rest IH]; intros i self.
  - split; reflexivity.
  - rewrite init_loop_cons.
    destruct (IH (i + 1) (init_loop i [bot] self)) as [-> ->].
    destruct (init_step i bot self) as (_ & _ & -> & -> & _).
    split; reflexivity.
Qed.

Lemma forced_total_ext (bets1 bets2 : gmap string Z) (players : list string) :
  (∀ p, p ∈ players → bets1 !! p = bets2 !! p) →
  forced_total bets1 players = forced_total bets2 players.
Proof.
  induction players as [| q players IH]; intros H; cbn [forced_total foldr].
  - reflexivity.
  - fold (forced_total bets1 players). fold (forced_total bets2 players).
    rewrite IH by (intros p Hp; apply H; right; exact Hp).
    unfold forced. rewrite (H q) by left. reflexivity.
Qed.

Lemma init_loop_pot (i : Z) (todo : list string) (self : t) :
  NoDup todo →
  pot (init_loop i todo self) = pot self + forced_total (bets self) todo.
Proof.
  revert i self. induction todo as [| bot rest IH]; intros i self Hnd.
  - cbn. lia.
  - apply NoDup_cons in Hnd as [Hnotin Hnd].
    rewrite init_loop_cons, (IH _ _ Hnd).
    destruct (init_step i bot self) as (-> & _).
    rewrite (forced_total_ext (bets (init_loop i [bot] self)) (bets self)).
    + cbn [forced_total foldr]. fold (forced_total (bets self) rest). lia.
    + intros p Hp. apply init_step_bets_other. intros ->. contradiction.
Qed.

Lemma init_loop_sidepot_ge (i : Z) (todo : list string) (self : t) :
  sidepot self <= sidepot (init_loop i todo self).
Proof.
  revert i self. induction todo as [| bot rest IH]; intros i self.
  - reflexivity.
  - rewrite init_loop_cons.
    specialize (IH (i + 1) (init_loop i [bot] self)).
    destruct (init_step i bot self) as (_ & Hs & _).
    destruct (bets self !! bot); lia.
Qed.

Lemma init_loop_sidepot_bound (i : Z) (todo : list string) (self : t)
    (player : string) (bet : Z) :
  NoDup todo → player ∈ todo → bets self !! player = Some bet →
  bet <= sidepot (init_loop i todo self).
Proof.
  revert i self. induction todo as [| bot rest IH]; intros i self Hnd Hin Hb.
  - apply elem_of_nil in Hin. contradiction.
  - apply NoDup_cons in Hnd as [Hnotin Hnd]. rewrite init_loop_cons.
    apply elem_of_cons in Hin as [-> | Hin].
    + pose proof (init_loop_sidepot_ge (i + 1) rest (init_loop i [bot] self)).
      destruct (init_step i bot self) as (_ & Hs & _).
      rewrite Hb in Hs. lia.
    + apply IH; [assumption | assumption |].
      rewrite init_step_bets_other; [assumption |].
      intros ->. contradiction.
Qed.

Lemma init_loop_sidepot_attained (i : Z) (todo : list string) (self : t) :
  NoDup todo →
  sidepot (init_loop i todo self) = sidepot self
  ∨ ∃ player, player ∈ todo
              ∧ bets self !! player = Some (sidepot (init_loop i todo self)).
Proof.
  revert i self. induction todo as [| bot rest IH]; intros i self Hnd.
  - left. reflexivity.
  - apply NoDup_cons in Hnd as [Hnotin Hnd]. rewrite init_loop_cons.
    destruct (IH (i + 1) (init_loop i [bot] self) Hnd)
      as [Heq | (p & Hp & Hb)].
    + rewrite Heq. destruct (init_step i bot self) as (_ & Hs & _).
      destruct (bets self !! bot) as [bet |] eqn:E; [| left; exact Hs].
      destruct (Z.max_spec (sidepot self) bet) as [[_ Hm] | [_ Hm]].
      * right. exists bot. split; [left |]. rewrite E, Hs, Hm. reflexivity.
      * left. lia.
    + right. exists p. split; [right; exact Hp |].
      rewrite <- Hb. symmetry. apply init_step_bets_other.
      intros ->. contradiction.
Qed.

Lemma init_loop_staked (i : Z) (todo : list string) (self : t)
    (player : string) :
  player ∈ todo ∨ is_Some (bets self !! player) →
  is_Some (bets (init_loop i todo self) !! player).
Proof.
  revert i self. induction todo as [| bot rest IH]; intros i self H.
  - destruct H as [H | H]; [apply elem_of_nil in H; contradiction | exact H].
  - rewrite init_loop_cons. apply IH.
    destruct (init_step i bot self) as (_ & _ & _ & _ & -> & _).
    destruct (decide (player = bot)) as [-> | Hne].
    + right. rewrite lookup_insert_eq. eauto.
    + rewrite lookup_insert_ne by congruence.
      destruct H as [H | H]; [| right; exact H].
      apply elem_of_cons in H as [H | H]; [contradiction | left; exact H].
Qed.

Lemma init_loop_index_kept (i : Z) (todo : list string) (self : t) :
  next_better_index self ≠ -1 →
  next_better_index (init_loop i todo self) = next_better_index self.
Proof.
  revert i self. induction todo as [| bot rest IH]; intros i self Hne.
  - reflexivity.
  - rewrite init_loop_cons.
    destruct (init_step i bot self) as (_ & _ & _ & _ & _ & Hi).
    assert (next_better_index (init_loop i [bot] self)
            = next_better_index self) as Hsame.
    { rewrite Hi. destruct (bets self !! bot); [reflexivity |].
      apply Z.eqb_neq in Hne. rewrite Hne. reflexivity. }
    rewrite IH; rewrite Hsame; [reflexivity | exact Hne].
Qed.

Lemma init_loop_index_first (i : Z) (todo : list string) (self : t)
    (k : nat) (player : string) :
  NoDup todo → next_better_index self = -1 → 0 <= i →
  todo !! k = Some player → bets self !! player = None →
  (∀ j q, (j < k)%nat → todo !! j = Some q → is_Some (bets self !! q)) →
  next_better_index (init_loop i todo self) = i + Z.of_nat k.
Proof.
  revert i self k.
  induction todo as [| bot rest IH]; intros i self k Hnd Hidx Hi Hk Hnone Hbefore.
  - discriminate Hk.
  - apply NoDup_cons in Hnd as [Hnotin Hnd]. rewrite init_loop_cons.
    destruct (init_step i bot self) as (_ & _ & _ & _ & _ & Hstep).
    destruct k as [| k].
    + injection Hk as ->. rewrite Hnone, Hidx in Hstep.
      change (-1 =? -1) with true in Hstep. cbv iota in Hstep.
      rewrite init_loop_index_kept by (rewrite Hstep; lia).
      rewrite Hstep. cbn. lia.
    + cbn in Hk.
      destruct (Hbefore 0%nat bot ltac:(lia) eq_refl) as [bet Hbet].
      rewrite Hbet in Hstep.
      rewrite (IH (i + 1) _ k Hnd); [lia | congruence | lia | exact Hk | |].
      * rewrite init_step_bets_other; [exact Hnone |].
        intros ->. apply Hnotin. eapply list_elem_of_lookup_2. exact Hk.
      * intros j q Hj Hq. rewrite init_step_bets_other.
        -- apply (Hbefore (S j) q); [lia | exact Hq].
        -- intros ->. apply Hnotin. eapply list_elem_of_lookup_2. exact Hq.
Qed.

Lemma init_loop_index_unset (i : Z) (todo : list string) (self : t) :
  NoDup todo → next_better_index self = -1 →
  (∀ q, q ∈ todo → is_Some (bets self !! q)) →
  next_better_index (init_loop i todo self) = -1.
Proof.
  revert i self.
  induction todo as [| bot rest IH]; intros i self Hnd Hidx Hall.
  - exact Hidx.
  - apply NoDup_cons in Hnd as [Hnotin Hnd]. rewrite init_loop_cons.
    destruct (init_step i bot self) as (_ & _ & _ & _ & _ & Hstep).
    destruct (Hall bot ltac:(left)) as [bet Hbet]. rewrite Hbet in Hstep.
    apply IH; [exact Hnd | congruence |].
    intros q Hq. rewrite init_step_bets_other.
    + apply Hall. right. exact Hq.
    + intros ->. contradiction.
Qed.

(** With distinct players who are the only posters, the forced bets of
    the players add up to the whole mapping. *)
Lemma forced_total_all (players : list string) (posted : gmap string Z) :
  NoDup players →
  (∀ p, is_Some (posted !! p) → p ∈ players) →
  forced_total posted players = bets_total posted.
Proof.
  revert posted.
  induction players as [| q players IH]; intros posted Hnd Hdom.
  - assert (posted = ∅) as ->.
    { apply map_empty. intros p.
      destruct (posted !! p) eqn:E; [| reflexivity].
      exfalso. eapply elem_of_nil. apply (Hdom p). eauto. }
    reflexivity.
  - apply NoDup_cons in Hnd as [Hnotin Hnd].
    cbn [forced_total foldr]. fold (forced_total posted players).
    rewrite (forced_total_ext posted (delete q posted)).
    + rewrite (IH (delete q posted) Hnd).
      * unfold forced, bets_total.
        destruct (posted !! q) as [bet |] eqn:E; cbn [default].
        -- symmetry. apply (map_fold_delete_L (λ _ b acc, b + acc)).
           ++ intros. lia.
           ++ exact E.
        -- rewrite delete_id by exact E. lia.
      * intros p [b Hb]. apply lookup_delete_Some in Hb as [Hne Hb].
        assert (p ∈ q :: players) as Hin by (apply Hdom; eauto).
        apply elem_of_cons in Hin as [-> | Hin]; [contradiction | exact Hin].
    + intros p Hp. symmetry. apply lookup_delete_ne.
      intros ->. contradiction.
Qed.

(** C4. A round built from distinct players and their non-negative
    forced bets: the pot takes every forced bet, the side pot is the
    largest of them (0 when there is none), nobody is the high bettor,
    and the first player without a forced bet is first to act, or the
    first player of all when everybody posted. *)
Theorem init_seeds_the_round
    (players : list string) (posted : gmap string Z) (pot0 : Z) :
  NoDup players →
  (∀ p, is_Some (posted !! p) → p ∈ players) →
  (∀ p bet, posted !! p = Some bet → 0 <= bet) →
  let round := init players posted pot0 in
  pot round = pot0 + bets_total posted
  ∧ (∀ p bet, posted !! p = Some bet → bet <= sidepot round)
  ∧ ((∃ p, posted !! p = Some (sidepot round))
     ∨ (posted = ∅ ∧ sidepot round = 0))
  ∧ high_better round = None
  ∧ (∀ k p, players !! k = Some p → posted !! p = None →
       (∀ j q, (j < k)%nat → players !! j = Some q → is_Some (posted !! q)) →
       next_better round = Ok (Some p))
  ∧ ((∀ q, q ∈ players → is_Some (posted !! q)) →
     ∀ p, players !! 0%nat = Some p → next_better round = Ok (Some p)).
Proof.
  intros Hnd Hdom Hpos round.
  set (start := mk pot0 0 players posted None (-1)).
  set (looped := init_loop 0 players start).
  assert (pot round = pot looped ∧ sidepot round = sidepot looped
          ∧ high_better round = high_better looped
          ∧ bots round = bots looped ∧ bets round = bets looped
          ∧ next_better_index round
            = if next_better_index looped =? -1 then 0
              else next_better_index looped) as (Rp & Rs & Rh & Rb & Rm & Ri).
  { subst round. unfold init. fold start. fold looped.
    unfold __set_better_index.
    destruct (next_better_index looped =? -1); repeat split. }
  destruct (init_loop_frame 0 players start) as [Fh Fb].
  fold looped in Fh, Fb. cbn in Fh, Fb.
  assert (∀ p k, players !! k = Some p →
                 next_better_index round = Z.of_nat k →
                 next_better round = Ok (Some p)) as Hact.
  { intros p k Hk Hidx. unfold next_better.
    rewrite Rb, Fb, Hidx, (py_index_nat _ _ _ Hk).
    cbn [mbind result_bind mret result_ret].
    unfold can_bet, is_staked. rewrite Rh, Fh, Rm.
    rewrite bool_decide_eq_true_2.
    - rewrite bool_decide_eq_false_2 by discriminate. reflexivity.
    - apply init_loop_staked. left.
      eapply list_elem_of_lookup_2. exact Hk. }
  split; [| split; [| split; [| split; [| split]]]].
  - rewrite Rp. unfold looped. rewrite init_loop_pot by exact Hnd.
    cbn [pot bets start]. rewrite forced_total_all by assumption.
    reflexivity.
  - intros p bet Hb. rewrite Rs.
    apply (init_loop_sidepot_bound 0 players start p bet Hnd).
    + apply Hdom. eauto.
    + exact Hb.
  - rewrite Rs.
    destruct (init_loop_sidepot_attained 0 players start Hnd)
      as [Heq | (p & _ & Hb)]; [| left; exists p; exact Hb].
    fold looped in Heq. cbn [sidepot start] in Heq.
    destruct (decide (posted = ∅)) as [-> | Hne];
      [right; split; [reflexivity | exact Heq] |].
    left. apply map_choose in Hne as (p & bet & Hb). exists p.
    pose proof (Hpos p bet Hb).
    pose proof (init_loop_sidepot_bound 0 players start p bet Hnd
                  (Hdom p (ex_intro _ bet Hb)) Hb) as Hle.
    fold looped in Hle. rewrite Hb. f_equal. lia.
  - rewrite Rh. exact Fh.
  - intros k p Hk Hnone Hbefore. apply (Hact p k Hk).
    rewrite Ri. unfold looped.
    rewrite (init_loop_index_first 0 players start k p Hnd eq_refl
               ltac:(lia) Hk Hnone Hbefore).
    destruct (Z.eqb_spec (0 + Z.of_nat k) (-1)); lia.
  - intros Hall p Hp. apply (Hact p 0%nat Hp).
    rewrite Ri. unfold looped.
    rewrite (init_loop_index_unset 0 players start Hnd eq_refl Hall).
    reflexivity.
Qed.

Lemma init_seeds_the_round_witness :
  pot Examples.four_handed = 0 + bets_total Examples.blinds_posted
  ∧ (∃ p, Examples.blinds_posted !! p
          = Some (sidepot Examples.four_handed))
  ∧ high_better Examples.four_handed = None
  ∧ next_better Examples.four_handed = Ok (Some "C").
Proof.
  assert (NoDup ["A"; "B"; "C"; "D"]) as Hnd by compute_done.
  assert (∀ p, is_Some (Examples.blinds_posted !! p)
               → p ∈ ["A"; "B"; "C"; "D"]) as Hdom.
  { intros p [bet Hb].
    apply (map_Forall_lookup_1 (λ p _, p ∈ ["A"; "B"; "C"; "D"])
             Examples.blinds_posted p bet); [compute_done | exact Hb]. }
  assert (∀ p bet, Examples.blinds_posted !! p = Some bet → 0 <= bet)
    as Hpos.
  { intros p bet Hb.
    apply (map_Forall_lookup_1 (λ _ bet, 0 <= bet)
             Examples.blinds_posted p bet); [compute_done | exact Hb]. }
  destruct (init_seeds_the_round ["A"; "B"; "C"; "D"]
              Examples.blinds_posted 0 Hnd Hdom Hpos)
    as (Hp & _ & Hs & Hh & Hfirst & _).
  split; [exact Hp |]. split.
  - destruct Hs as [Hs | [Hempty _]]; [exact Hs |].
    vm_compute in Hempty. discriminate Hempty.
  - split; [exact Hh |].
    apply (Hfirst 2%nat "C"); [reflexivity | vm_compute; reflexivity |].
    intros j q Hj Hq.
    destruct j as [| [| j]]; [| | lia];
      injection Hq as <-; eexists; vm_compute; reflexivity.
Defined.

(** C5. An under-call by the player who is next to act folds that
    player: [post_bet] answers [False], the player leaves the bets, and
    the pot, the side pot and the high bettor stay as they were. *)
Theorem under_call_folds (self : t) (player : string) (bet previous : Z) :
  next_better self = Ok (Some player) →
  bets self !! player = Some previous →
  previous + bet < sidepot self →
  ∃ self',
    post_bet player bet self = Ok (false, self')
    ∧ bets self' = delete player (bets self)
    ∧ is_staked self' player = false
    ∧ pot self' = pot self
    ∧ sidepot self' = sidepot self
    ∧ high_better self' = high_better self.
Proof.
  intros Hnext Hprev Hlow.
  pose proof (next_better_Some self player Hnext) as Hlen.
  unfold post_bet. rewrite Hnext. cbn [mbind result_bind].
  rewrite bool_decide_eq_true_2 by reflexivity. cbn [negb].
  rewrite Hlen. cbn [mbind result_bind mret result_ret bets with_next_better_index].
  rewrite Hprev.
  cbn [mbind result_bind mret result_ret sidepot with_next_better_index].
  assert ((previous + bet >=? sidepot self) = false) as ->
    by (rewrite Z.geb_leb; apply Z.leb_gt; lia).
  eexists. split; [reflexivity |]. cbn.
  repeat split; try reflexivity.
  unfold is_staked. cbn. rewrite lookup_delete_eq.
  apply bool_decide_eq_false_2. intros [? ?]. discriminate.
Qed.

Lemma under_call_folds_witness :
  ∃ self',
    post_bet "A" 10 Examples.facing_a_raise = Ok (false, self')
    ∧ bets self' = delete "A" (bets Examples.facing_a_raise)
    ∧ is_staked self' "A" = false
    ∧ pot self' = 70
    ∧ sidepot self' = 40
    ∧ high_better self' = Some "C".
Proof.
  apply (under_call_folds Examples.facing_a_raise "A" 10 10).
  - vm_compute. reflexivity.
  - vm_compute. reflexivity.
  - vm_compute. reflexivity.
Defined.

(** C10. [post_bet] looks at nothing but the total: whatever the amount,
    when the previous bet plus the amount reaches the side pot the bet
    stands and the pot moves by exactly the amount. *)
Theorem post_bet_accepts_any_amount
    (self : t) (player : string) (bet previous : Z) :
  next_better self = Ok (Some player) →
  bets self !! player = Some previous →
  sidepot self <= previous + bet →
  ∃ self',
    post_bet player bet self = Ok (true, self')
    ∧ pot self' = pot self + bet
    ∧ bets self' = <[player := previous + bet]> (bets self)
    ∧ sidepot self' = Z.max (sidepot self) (previous + bet).
Proof.
  intros Hnext Hprev Hhigh.
  pose proof (next_better_Some self player Hnext) as Hlen.
  unfold post_bet. rewrite Hnext. cbn [mbind result_bind].
  rewrite bool_decide_eq_true_2 by reflexivity. cbn [negb].
  rewrite Hlen. cbn [mbind result_bind mret result_ret bets with_next_better_index].
  rewrite Hprev.
  cbn [mbind result_bind mret result_ret sidepot with_next_better_index].
  assert ((previous + bet >=? sidepot self) = true) as ->
    by (rewrite Z.geb_leb; apply Z.leb_le; lia).
  eexists. split; [reflexivity |].
  unfold __process_bet. cbn.
  destruct (Z.gtb_spec (previous + bet) (sidepot self)); cbn;
    repeat split; lia.
Qed.

Lemma post_bet_accepts_any_amount_witness :
  NoBetLimit.check_bet (pot Examples.big_blind_to_act) 0 = false
  ∧ ∃ self',
      post_bet "B" 0 Examples.big_blind_to_act = Ok (true, self')
      ∧ pot self' = 80 + 0
      ∧ bets self' = <["B" := 20 + 0]> (bets Examples.big_blind_to_act)
      ∧ sidepot self' = Z.max 20 (20 + 0).
Proof.
  split; [reflexivity |].
  apply (post_bet_accepts_any_amount Examples.big_blind_to_act "B" 0 20).
  - vm_compute. reflexivity.
  - vm_compute. reflexivity.
  - vm_compute. congruence.
Defined.

(** C2 at the failing input.  With the blinds of A and B posted, C is
    first to act; C, D and A call and B checks, every post stands and
    the pot is 80; but no high bettor was ever set, and [next_better]
    names C again instead of closing the round. *)
Theorem round_stays_open_when_all_call :
  next_better Examples.four_handed = Ok (Some "C")
  ∧ Examples.play [("C", 20); ("D", 20); ("A", 10)] Examples.four_handed
    = Ok ([true; true; true], Examples.big_blind_to_act)
  ∧ Examples.play [("B", 0)] Examples.big_blind_to_act
    = Ok ([true], Examples.big_blind_checked)
  ∧ pot Examples.big_blind_checked = 80
  ∧ high_better Examples.big_blind_checked = None
  ∧ next_better Examples.big_blind_checked = Ok (Some "C").
Proof.
  repeat split; vm_compute; reflexivity.
Qed.

End Betting.

(** ** The blind rotation *)

Section BlindRotation.
Import BlindManager.

Lemma eliminate_loop_absent (name : string) (n i : Z) (players : list string)
    (sb : Z) :
  name ∉ players →
  eliminate_loop name n i (Some <$> players) sb = Ok (Some <$> players, sb).
Proof.
  revert i. induction players as [| q players IH]; intros i Hnotin.
  - reflexivity.
  - apply not_elem_of_cons in Hnotin as [Hne Hnotin].
    cbn [fmap list_fmap eliminate_loop].
    rewrite bool_decide_eq_false_2 by congruence.
    fold (fmap (M := list) (@Some string) players).
    rewrite (IH (i + 1) Hnotin). reflexivity.
Qed.

(** The loop on a list of distinct players that has [name] on seat [k]:
    the seat is cleared, and a pointer behind it moves one seat down. *)
Lemma eliminate_loop_present (name : string) (n i : Z) (players : list string)
    (sb : Z) (k : nat) :
  NoDup players → players !! k = Some name → 0 <= i → 0 <= sb <= n →
  eliminate_loop name n i (Some <$> players) sb
  = Ok (<[k := None]> (Some <$> players),
        if sb >? i + Z.of_nat k then sb - 1 else sb).
Proof.
  revert i k.
  induction players as [| q players IH]; intros i k Hnd Hk Hi Hsb.
  - discriminate Hk.
  - apply NoDup_cons in Hnd as [Hnotin Hnd].
    cbn [fmap list_fmap eliminate_loop].
    fold (fmap (M := list) (@Some string) players).
    destruct k as [| k].
    + injection Hk as ->.
      rewrite bool_decide_eq_true_2 by reflexivity.
      replace (i + Z.of_nat 0) with i by lia.
      destruct (Z.gtb_spec sb i) as [Hgt | Hle].
      * unfold wrap. assert ((n =? 0) = false) as -> by (apply Z.eqb_neq; lia).
        cbn [mbind result_bind mret result_ret].
        rewrite Z.mod_small by lia.
        rewrite (eliminate_loop_absent name n (i + 1) players _ Hnotin).
        reflexivity.
      * cbn [mbind result_bind mret result_ret].
        rewrite (eliminate_loop_absent name n (i + 1) players _ Hnotin).
        reflexivity.
    + cbn in Hk.
      assert (q ≠ name) as Hne.
      { intros ->. apply Hnotin. eapply list_elem_of_lookup_2. exact Hk. }
      rewrite bool_decide_eq_false_2 by congruence.
      rewrite (IH (i + 1) k Hnd Hk ltac:(lia) Hsb).
      cbn [mbind result_bind mret result_ret].
      replace (i + 1 + Z.of_nat k) with (i + Z.of_nat (S k)) by lia.
      reflexivity.
Qed.

Lemma omap_id_Some (players : list string) :
  omap id (Some <$> players) = players.
Proof.
  induction players as [| q players IH]; [reflexivity |].
  cbn. f_equal. exact IH.
Qed.

Lemma omap_cleared_seat (players : list string) (k : nat) :
  omap id (<[k := None]> (Some <$> players)) = delete k players.
Proof.
  revert k. induction players as [| q players IH]; intros k.
  - reflexivity.
  - destruct k as [| k]; cbn.
    + apply omap_id_Some.
    + f_equal. apply IH.
Qed.

(** [eliminate_player] on a rotation of distinct players whose pointer is
    in range: the player leaves the list, and the pointer moves one seat
    down exactly when the player sat before it. *)
Lemma eliminate_player_spec (self : t) (name : string) (k : nat) :
  NoDup (bots self) → bots self !! k = Some name →
  0 <= sb_index self < Z.of_nat (length (bots self)) →
  eliminate_player self name
  = Ok (mk (hands_per_level self) (hands_this_level self)
           (delete k (bots self)) (small_blinds_played self)
           (if sb_index self >? Z.of_nat k
            then sb_index self - 1 else sb_index self)
           (blind self)).
Proof.
  intros Hnd Hk Hsb. unfold eliminate_player.
  rewrite (eliminate_loop_present name (Z.of_nat (length (bots self))) 0
             (bots self) (sb_index self) k Hnd Hk ltac:(lia) ltac:(lia)).
  cbn [mbind result_bind mret result_ret].
  rewrite omap_cleared_seat. reflexivity.
Qed.

(** X24. A seat before the pointer: the pointer moves one seat down and
    the same player posts the next small blind. *)
Lemma eliminate_before_pointer (self self' : t) (name : string) (k : nat) :
  NoDup (bots self) → bots self !! k = Some name →
  Z.of_nat k < sb_index self < Z.of_nat (length (bots self)) →
  eliminate_player self name = Ok self' →
  sb_index self' = sb_index self - 1 ∧ next_sb self' = next_sb self.
Proof.
  intros Hnd Hk Hsb He.
  rewrite (eliminate_player_spec self name k Hnd Hk ltac:(lia)) in He.
  injection He as <-. cbn [sb_index bots blind].
  assert ((sb_index self >? Z.of_nat k) = true) as ->
    by (rewrite Z.gtb_ltb; apply Z.ltb_lt; lia).
  split; [reflexivity |].
  destruct (lookup_lt_is_Some_2 (bots self) (Z.to_nat (sb_index self))
              ltac:(lia)) as [bot Hbot].
  unfold next_sb. cbn [sb_index bots blind].
  replace (sb_index self) with (Z.of_nat (Z.to_nat (sb_index self))) at 2
    by lia.
  rewrite (py_index_nat _ _ _ Hbot).
  replace (sb_index self - 1)
    with (Z.of_nat (Z.to_nat (sb_index self) - 1)) by lia.
  rewrite (py_index_nat _ _ bot); [reflexivity |].
  rewrite list_lookup_delete_ge by lia.
  replace (S (Z.to_nat (sb_index self) - 1)) with (Z.to_nat (sb_index self))
    by lia.
  exact Hbot.
Qed.

(** X25. After an elimination the pointer is out of range in one case
    only: the eliminated player sat at the pointer, on the last seat. *)
Lemma eliminate_pointer_in_range (self self' : t) (name : string) (k : nat) :
  NoDup (bots self) → bots self !! k = Some name →
  0 <= sb_index self < Z.of_nat (length (bots self)) →
  eliminate_player self name = Ok self' →
  (0 <= sb_index self' < Z.of_nat (length (bots self')))
  ↔ ¬ (sb_index self = Z.of_nat k
       ∧ S k = length (bots self)).
Proof.
  intros Hnd Hk Hsb He.
  rewrite (eliminate_player_spec self name k Hnd Hk Hsb) in He.
  injection He as <-. cbn [sb_index bots].
  pose proof (lookup_lt_Some _ _ _ Hk) as Hlt.
  rewrite length_delete by eauto.
  destruct (Z.gtb_spec (sb_index self) (Z.of_nat k)); lia.
Qed.

(** C6 at the failing input.  Three players, two hands played: the small
    blind is on C, the last seat.  Eliminating C leaves two players and
    keeps the index at 2, so [next_sb] raises [IndexError]. *)
Theorem eliminating_the_last_seat_strands_the_pointer :
  (finish_hand (init 5 ["A"; "B"; "C"]) ≫= finish_hand)
  = Ok Examples.third_hand
  ∧ next_sb Examples.third_hand = Ok (10, "C")
  ∧ eliminate_player Examples.third_hand "C"
    = Ok (mk 5 2 ["A"; "B"] [0; 0; 0] 2 (Blinds.mk 10 20))
  ∧ next_sb (mk 5 2 ["A"; "B"] [0; 0; 0] 2 (Blinds.mk 10 20))
    = Raise IndexError.
Proof.
  repeat split; vm_compute; reflexivity.
Qed.

End BlindRotation.


(** ** Sorted hands *)

Section SortedHands.
Import HandBuilder.

Lemma Card_lt_true (a b : Card.t) :
  Card.lt a b = true
  ↔ Card.value a < Card.value b
    ∨ (Card.value a = Card.value b ∧ Card.suit a < Card.suit b).
Proof.
  unfold Card.lt.
  rewrite orb_true_iff, andb_true_iff, !Z.ltb_lt, Z.eqb_eq. reflexivity.
Qed.

Lemma Card_lt_false (a b : Card.t) :
  Card.lt a b = false
  ↔ Card.value b < Card.value a
    ∨ (Card.value a = Card.value b ∧ Card.suit b <= Card.suit a).
Proof.
  unfold Card.lt.
  rewrite orb_false_iff, andb_false_iff, !Z.ltb_ge, Z.eqb_neq. lia.
Qed.

Lemma Card_lt_asym (a b : Card.t) : Card.lt a b = true → Card.lt b a = false.
Proof. rewrite Card_lt_true, Card_lt_false. lia. Qed.

Lemma Card_lt_le_trans (a b c : Card.t) :
  Card.lt a b = true → Card.lt c b = false → Card.lt a c = true.
Proof. rewrite !Card_lt_true, Card_lt_false. lia. Qed.

Lemma Card_lt_total (a b : Card.t) :
  Card.lt a b = false → Card.lt b a = false → a = b.
Proof.
  rewrite !Card_lt_false. intros H1 H2.
  destruct a as [va sa], b as [vb sb]. cbn in *. f_equal; lia.
Qed.

Lemma insert_desc_descending (c : Card.t) (l : list Card.t) :
  descending l → descending (insert_desc c l).
Proof.
  unfold descending. induction l as [| d l IH]; intros H; cbn [insert_desc].
  - repeat constructor.
  - destruct (Card.lt c d) eqn:E.
    + apply Sorted_inv in H as [Hs Hh]. constructor; [apply IH; exact Hs |].
      destruct l as [| e l]; cbn [insert_desc].
      * constructor. apply Card_lt_asym. exact E.
      * destruct (Card.lt c e); constructor.
        -- apply HdRel_inv in Hh. exact Hh.
        -- apply Card_lt_asym. exact E.
    + constructor; [exact H |]. constructor. exact E.
Qed.

(** X1. [__sort_hand] returns the same cards, highest first: no card of
    the result is below its successor in the order of (value, suit). *)
Theorem sort_hand_sorts (cards : list Card.t) :
  descending (__sort_hand cards) ∧ __sort_hand cards ≡ₚ cards.
Proof.
  split; [| apply sort_hand_Permutation].
  unfold __sort_hand. induction cards as [| c cards IH]; cbn [foldr].
  - constructor.
  - apply insert_desc_descending. exact IH.
Qed.

Lemma insert_desc_comm (x y : Card.t) (l : list Card.t) :
  insert_desc x (insert_desc y l) = insert_desc y (insert_desc x l).
Proof.
  induction l as [| d l IH]; cbn [insert_desc].
  - destruct (Card.lt x y) eqn:Exy, (Card.lt y x) eqn:Eyx; try reflexivity.
    + apply Card_lt_asym in Exy. congruence.
    + rewrite (Card_lt_total x y Exy Eyx). reflexivity.
  - destruct (Card.lt y d) eqn:Eyd, (Card.lt x d) eqn:Exd;
      cbn [insert_desc]; rewrite ?Eyd, ?Exd.
    + rewrite IH. reflexivity.
    + rewrite (Card_lt_le_trans y d x Eyd Exd). cbn [insert_desc].
      rewrite ?Eyd. reflexivity.
    + rewrite (Card_lt_le_trans x d y Exd Eyd). cbn [insert_desc].
      rewrite ?Exd. reflexivity.
    + destruct (Card.lt x y) eqn:Exy, (Card.lt y x) eqn:Eyx;
        cbn [insert_desc]; rewrite ?Eyd, ?Exd; try reflexivity.
      * apply Card_lt_asym in Exy. congruence.
      * rewrite (Card_lt_total x y Exy Eyx). reflexivity.
Qed.

Lemma sort_hand_of_Permutation (h1 h2 : list Card.t) :
  h1 ≡ₚ h2 → __sort_hand h1 = __sort_hand h2.
Proof.
  unfold __sort_hand. induction 1 as [| c l1 l2 _ IH | c d l | l1 l2 l3 _ IH1 _ IH2];
    cbn [foldr].
  - reflexivity.
  - rewrite IH. reflexivity.
  - apply insert_desc_comm.
  - congruence.
Qed.

(** X2. The order in which the cards are given does not matter: two
    lists of the same cards get the same score, and, when they are not
    five cards, the same best hand. *)
Theorem hand_order_is_irrelevant (h1 h2 : list Card.t) :
  h1 ≡ₚ h2 →
  score_hand h1 = score_hand h2
  ∧ (length h1 ≠ HAND_LENGTH → find_hand h1 = find_hand h2).
Proof.
  intros Hp. pose proof (Permutation_length Hp) as Hlen.
  pose proof (sort_hand_of_Permutation h1 h2 Hp) as Hsort.
  assert (py_truthy h1 = py_truthy h2) as Ht
    by (destruct h1, h2; try discriminate Hlen; reflexivity).
  split.
  - unfold score_hand. rewrite Ht, Hlen, Hsort. reflexivity.
  - intros Hne. unfold find_hand. rewrite Ht, <- Hlen, Hsort.
    apply Nat.eqb_neq in Hne. rewrite Hne. reflexivity.
Qed.

Lemma hand_order_is_irrelevant_witness :
  score_hand (reverse Examples.broadway) = score_hand Examples.broadway
  ∧ find_hand (reverse Examples.seven_cards) = find_hand Examples.seven_cards.
Proof.
  split.
  - apply (hand_order_is_irrelevant (reverse Examples.broadway)
             Examples.broadway).
    apply reverse_Permutation.
  - apply (hand_order_is_irrelevant (reverse Examples.seven_cards)
             Examples.seven_cards).
    + apply reverse_Permutation.
    + vm_compute. congruence.
Defined.

(** *** Straights *)

Lemma is_straight_from_spec (last_card : Card.t) (cards : list Card.t) :
  is_straight_from (Some last_card) cards = true
  ↔ ∀ k d, cards !! k = Some d →
           Card.value d = Card.value last_card - Z.of_nat (S k).
Proof.
  revert last_card.
  induction cards as [| c cards IH]; intros last_card; cbn [is_straight_from].
  - split; [| reflexivity]. intros _ k d H. discriminate H.
  - unfold __gap.
    destruct (Z.eqb_spec (Card.value last_card - Card.value c) 1) as [E | E];
      cbn [negb].
    + rewrite IH. split; intros H k d Hk.
      * destruct k as [| k]; cbn in Hk.
        -- injection Hk as <-. lia.
        -- rewrite (H k d Hk). lia.
      * rewrite (H (S k) d Hk). lia.
    + split; [discriminate |]. intros H.
      specialize (H 0%nat c eq_refl). lia.
Qed.

(** X3. [is_straight] holds exactly when every card is one below the
    card before it, so that the card at position [k] is [k] below the
    first card; an ace never counts as a one. *)
Theorem is_straight_spec (c : Card.t) (rest : list Card.t) :
  is_straight (c :: rest) = true
  ↔ ∀ k d, (c :: rest) !! k = Some d →
           Card.value d = Card.value c - Z.of_nat k.
Proof.
  unfold is_straight. cbn [is_straight_from]. rewrite is_straight_from_spec.
  split; intros H k d Hk.
  - destruct k as [| k]; cbn in Hk.
    + injection Hk as <-. lia.
    + rewrite (H k d Hk). lia.
  - rewrite (H (S k) d Hk). lia.
Qed.

Lemma seen_zero (cards : list Card.t) (i : Z) :
  (∀ d, d ∈ cards → Card.value d ≠ i) → seen cards i = 0%nat.
Proof.
  unfold seen. induction cards as [| c cards IH]; intros H; [reflexivity |].
  rewrite filter_cons_False by (apply H; left).
  apply IH. intros d Hd. apply H. right. exact Hd.
Qed.

Lemma seen_falling (top : Z) (cards : list Card.t) (i : Z) :
  (∀ k d, cards !! k = Some d → Card.value d = top - Z.of_nat k) →
  (seen cards i <= 1)%nat.
Proof.
  revert top. induction cards as [| c cards IH]; intros top H.
  - cbn. lia.
  - assert (∀ k d, cards !! k = Some d
                   → Card.value d = (top - 1) - Z.of_nat k) as Hrest.
    { intros k d Hk. rewrite (H (S k) d Hk). lia. }
    unfold seen. destruct (decide (Card.value c = i)) as [E | E].
    + rewrite filter_cons_True by exact E. cbn [length].
      fold (seen cards i). rewrite seen_zero; [lia |].
      intros d Hd. apply list_elem_of_lookup in Hd as [k Hk].
      rewrite (Hrest k d Hk). specialize (H 0%nat c eq_refl). lia.
    + rewrite filter_cons_False by exact E. apply (IH (top - 1) Hrest).
Qed.

Lemma no_repeated_value (cards : list Card.t) :
  (∀ i, (seen cards i <= 1)%nat) →
  find_pairs_trips_quads cards = ([], [], []).
Proof.
  intros H. unfold find_pairs_trips_quads, values_seen.
  assert (∀ n, (2 <= n)%nat → filter (λ i, seen cards i = n) (seqZ 2 13) = [])
    as Hnone.
  { intros n Hn. induction (seqZ 2 13) as [| i l IH]; [reflexivity |].
    rewrite filter_cons_False; [exact IH |]. specialize (H i). lia. }
  rewrite !Hnone by lia. reflexivity.
Qed.

(** X4. A straight holds no pair, no trips and no quads, as the comment
    in [__score_hand] says. *)
Theorem straight_has_no_pair (cards : list Card.t) :
  is_straight cards = true →
  find_pairs_trips_quads cards = ([], [], []).
Proof.
  intros Hs. apply no_repeated_value. intros i.
  destruct cards as [| c rest]; [cbn; lia |].
  apply (seen_falling (Card.value c)). intros k d Hk.
  unfold is_straight in Hs. cbn [is_straight_from] in Hs.
  destruct k as [| k]; cbn in Hk.
  - injection Hk as <-. lia.
  - rewrite (proj1 (is_straight_from_spec c rest) Hs k d Hk). lia.
Qed.

Lemma straight_has_no_pair_witness :
  find_pairs_trips_quads (__sort_hand Examples.broadway) = ([], [], []).
Proof.
  apply (straight_has_no_pair (__sort_hand Examples.broadway)).
  vm_compute. reflexivity.
Defined.

End SortedHands.

(** ** Flushes and the best hand *)

Section BestHand.
Import HandBuilder.

Lemma filter_keeps_all {A : Type} (P : A → Prop) `{∀ x, Decision (P x)}
    (l : list A) :
  length (filter P l) = length l → Forall P l.
Proof.
  induction l as [| x l IH]; intros Hlen; [apply Forall_nil_2 |].
  destruct (decide (P x)) as [Hx | Hx].
  - rewrite filter_cons_True in Hlen by exact Hx. cbn in Hlen.
    apply Forall_cons_2; [exact Hx | apply IH; lia].
  - rewrite filter_cons_False in Hlen by exact Hx.
    assert (length (filter P l) <= length l)%nat by apply length_filter.
    cbn in Hlen. lia.
Qed.

Lemma filter_of_all {A : Type} (P : A → Prop) `{∀ x, Decision (P x)}
    (l : list A) :
  Forall P l → filter P l = l.
Proof.
  induction 1 as [| x l Hx _ IH]; [reflexivity |].
  rewrite filter_cons_True by exact Hx. rewrite IH. reflexivity.
Qed.

Lemma select_flush_suit_Some (cards : list Card.t) (s : Z) :
  select_flush_suit cards = Some s →
  0 <= s < 4 ∧ (HAND_LENGTH <= suit_count cards s)%nat.
Proof.
  unfold select_flush_suit. destruct (py_truthy cards); [| discriminate].
  intros H. apply find_some in H as [Hin Hcount].
  apply list_elem_of_In, elem_of_seqZ in Hin.
  apply Nat.leb_le in Hcount. split; [lia | exact Hcount].
Qed.

Lemma flush_of_five (cards : list Card.t) (s : Z) :
  length cards = HAND_LENGTH →
  select_flush_suit cards = Some s →
  0 <= s < 4 ∧ Forall (λ c, Card.suit c = s) cards.
Proof.
  intros Hlen H. apply select_flush_suit_Some in H as [Hs Hcount].
  split; [exact Hs |].
  apply (filter_keeps_all (λ c : Card.t, Card.suit c = s)).
  unfold suit_count in Hcount.
  assert (length (filter (λ c, Card.suit c = s) cards) <= length cards)%nat
    by apply length_filter.
  lia.
Qed.

(** X5. A five-card hand has a flush suit exactly when its five cards
    share one of the four suits. *)
Theorem flush_suit_of_a_hand (cards : list Card.t) (s : Z) :
  length cards = HAND_LENGTH →
  select_flush_suit cards = Some s
  ↔ 0 <= s < 4 ∧ Forall (λ c, Card.suit c = s) cards.
Proof.
  intros Hlen. split; [apply flush_of_five; exact Hlen |]. intros [Hs Hall].
  destruct cards as [| c rest]; [discriminate Hlen |].
  destruct (select_flush_suit (c :: rest)) as [s' |] eqn:E.
  - destruct (flush_of_five (c :: rest) s' Hlen E) as [_ Hall'].
    apply Forall_cons in Hall as [Hc _]. apply Forall_cons in Hall' as [Hc' _].
    congruence.
  - exfalso. unfold select_flush_suit in E. cbn [py_truthy] in E.
    assert (In s (seqZ 0 4)) as Hin
      by (apply list_elem_of_In, elem_of_seqZ; lia).
    pose proof (find_none _ _ E s Hin) as Hf. cbv beta in Hf.
    apply Nat.leb_gt in Hf. unfold suit_count in Hf.
    rewrite (filter_of_all _ _ Hall), Hlen in Hf. lia.
Qed.

Lemma flush_suit_of_a_hand_witness :
  select_flush_suit Examples.nine_high_flush = Some Constants.HEARTS
  ↔ 0 <= Constants.HEARTS < 4
    ∧ Forall (λ c, Card.suit c = Constants.HEARTS) Examples.nine_high_flush.
Proof.
  apply (flush_suit_of_a_hand Examples.nine_high_flush Constants.HEARTS).
  reflexivity.
Defined.

Lemma at_most_one {A : Type} (l : list A) :
  NoDup l → (∀ a b, a ∈ l → b ∈ l → a = b) → (length l <= 1)%nat.
Proof.
  intros Hnd Hsame. destruct l as [| a [| b l]]; cbn; try lia.
  exfalso. apply NoDup_cons in Hnd as [Hnotin _]. apply Hnotin.
  rewrite (Hsame a b); [left | left | right; left].
Qed.

(** X6. Five distinct cards of one suit hold no pair, no trips and no
    quads, as the comment in [__score_hand] says. *)
Theorem flush_has_no_pair (cards : list Card.t) (s : Z) :
  length cards = HAND_LENGTH → NoDup cards →
  select_flush_suit cards = Some s →
  find_pairs_trips_quads cards = ([], [], []).
Proof.
  intros Hlen Hnd Hflush.
  apply (flush_of_five cards s Hlen) in Hflush as [_ Hall].
  apply no_repeated_value. intros i. unfold seen.
  apply at_most_one; [apply NoDup_filter; exact Hnd |].
  intros a b Ha Hb.
  apply list_elem_of_filter in Ha as [Hva Ha].
  apply list_elem_of_filter in Hb as [Hvb Hb].
  rewrite Forall_forall in Hall.
  pose proof (Hall a Ha) as Hsa. pose proof (Hall b Hb) as Hsb.
  destruct a as [va sa], b as [vb sb]. cbn in *. congruence.
Qed.

Lemma flush_has_no_pair_witness :
  find_pairs_trips_quads Examples.nine_high_flush = ([], [], []).
Proof.
  apply (flush_has_no_pair Examples.nine_high_flush Constants.HEARTS).
  - reflexivity.
  - compute_done.
  - vm_compute. reflexivity.
Defined.

(** *** Combinations *)

Lemma combinations_spec {A : Type} (l : list A) (k : nat) (h : list A) :
  h ∈ combinations l k → length h = k ∧ h `sublist_of` l.
Proof.
  revert k h. induction l as [| x l IH]; intros k h Hin.
  - destruct k as [| k]; cbn in Hin.
    + apply list_elem_of_singleton in Hin as ->. split; [reflexivity |].
      constructor.
    + apply elem_of_nil in Hin. contradiction.
  - destruct k as [| k]; cbn [combinations] in Hin.
    + apply list_elem_of_singleton in Hin as ->. split; [reflexivity |].
      apply sublist_nil_l.
    + apply elem_of_app in Hin as [Hin | Hin].
      * apply list_elem_of_In, in_map_iff in Hin as (h' & <- & Hin).
        apply list_elem_of_In, IH in Hin as [Hlen Hsub].
        split; [cbn; lia | apply sublist_skip; exact Hsub].
      * apply IH in Hin as [Hlen Hsub].
        split; [exact Hlen | apply sublist_cons; exact Hsub].
Qed.

Lemma combinations_nonempty {A : Type} (l : list A) (k : nat) :
  (k <= length l)%nat → combinations l k ≠ [].
Proof.
  revert k. induction l as [| x l IH]; intros k Hk.
  - cbn in Hk. assert (k = 0%nat) as -> by lia. discriminate.
  - destruct k as [| k]; [discriminate |]. cbn [combinations].
    cbn in Hk. specialize (IH k ltac:(lia)).
    destruct (combinations l k); [contradiction | discriminate].
Qed.

Lemma category_nonneg (cards : list Card.t) : (0 <= category cards)%Q.
Proof.
  unfold category.
  destruct (is_straight cards), (select_flush_suit cards);
    try (intros H; discriminate H).
  destruct (find_pairs_trips_quads cards) as [[pairs trips] quads].
  repeat match goal with
         | |- context [if ?b then _ else _] => destruct b
         end; intros H; discriminate H.
Qed.

Lemma score_of_valid_cards (hand : list Card.t) :
  hand ≠ [] → Forall Card.ok hand →
  ∃ s, __score_hand hand = Ok s ∧ (0 <= s)%Q.
Proof.
  intros Hne Hok. destruct hand as [| c rest]; [contradiction |].
  apply Forall_cons in Hok as [Hc _].
  destruct (score_hand_internal_split c rest Hc) as (x & Hx & Hq).
  exists x. split; [exact Hx |].
  pose proof (category_nonneg (c :: rest)).
  pose proof (score_value_pos c Hc).
  destruct (uses_high_card (category (c :: rest))); lra.
Qed.

(** The loop of [find_hand]: it keeps what it was given when no hand
    scores above the score it was given, and otherwise returns a hand that
    no other hand outscores. *)
Lemma best_of_spec (hands : list (list Card.t)) (best_score : Q)
    (best_hand : option (list Card.t)) :
  Forall (λ h, ∃ s, __score_hand h = Ok s) hands →
  (best_of hands best_score best_hand = Ok best_hand
   ∧ Forall (λ h, ∃ s, __score_hand h = Ok s ∧ (s <= best_score)%Q) hands)
  ∨ (∃ hand s,
       best_of hands best_score best_hand = Ok (Some hand)
       ∧ hand ∈ hands ∧ __score_hand hand = Ok s ∧ (best_score < s)%Q
       ∧ Forall (λ h, ∃ s', __score_hand h = Ok s' ∧ (s' <= s)%Q) hands).
Proof.
  revert best_score best_hand.
  induction hands as [| h hands IH]; intros best_score best_hand Hall.
  - left. split; [reflexivity | apply Forall_nil_2].
  - apply Forall_cons in Hall as [[s Hs] Hall]. cbn [best_of]. rewrite Hs.
    cbn [mbind result_bind].
    destruct (Qlt_bool best_score s) eqn:E.
    + apply Qlt_bool_iff in E. right.
      destruct (IH s (Some h) Hall)
        as [[Hb Hle] | (hand & s' & Hb & Hin & Hs' & Hlt & Hle)].
      * exists h, s. repeat split; try assumption; [left |].
        apply Forall_cons_2; [| exact Hle].
        exists s. split; [exact Hs | apply Qle_refl].
      * exists hand, s'. repeat split; try assumption; [right; exact Hin | lra |].
        apply Forall_cons_2; [| exact Hle].
        exists s. split; [exact Hs | lra].
    + apply Qlt_bool_false in E.
      destruct (IH best_score best_hand Hall)
        as [[Hb Hle] | (hand & s' & Hb & Hin & Hs' & Hlt & Hle)].
      * left. split; [exact Hb |].
        apply Forall_cons_2; [| exact Hle]. exists s. split; assumption.
      * right. exists hand, s'.
        repeat split; try assumption; [right; exact Hin |].
        apply Forall_cons_2; [| exact Hle].
        exists s. split; [exact Hs | lra].
Qed.

(** X7. From six or more valid cards [find_hand] returns five of them,
    in sorted order, and no five-card combination scores higher. *)
Theorem find_hand_takes_a_best_hand (cards : list Card.t) :
  (HAND_LENGTH < length cards)%nat → Forall Card.ok cards →
  ∃ hand s,
    find_hand cards = Ok (Some hand)
    ∧ length hand = HAND_LENGTH
    ∧ hand `sublist_of` __sort_hand cards
    ∧ __score_hand hand = Ok s
    ∧ Forall (λ other, ∃ s', __score_hand other = Ok s' ∧ (s' <= s)%Q)
             (combinations (__sort_hand cards) HAND_LENGTH).
Proof.
  intros Hlen Hok.
  assert (Forall Card.ok (__sort_hand cards)) as Hsorted_ok
    by (rewrite sort_hand_Permutation; exact Hok).
  assert (length (__sort_hand cards) = length cards) as Hsl
    by (apply Permutation_length, sort_hand_Permutation).
  set (hands := combinations (__sort_hand cards) HAND_LENGTH).
  assert (Forall (λ h, ∃ s, __score_hand h = Ok s ∧ (0 <= s)%Q) hands)
    as Hscores.
  { apply Forall_forall. intros h Hh.
    apply combinations_spec in Hh as [Hl Hsub].
    apply score_of_valid_cards.
    - intros ->. discriminate Hl.
    - rewrite Forall_forall in Hsorted_ok |- *. intros c Hc.
      apply Hsorted_ok. eapply elem_of_sublist; eassumption. }
  assert (Forall (λ h, ∃ s, __score_hand h = Ok s) hands) as Hok_scores.
  { eapply Forall_impl; [exact Hscores |]. intros h (s & Hs & _). eauto. }
  unfold find_hand.
  assert (py_truthy cards = true) as ->
    by (destruct cards; [cbn in Hlen; lia | reflexivity]).
  assert ((length cards <? HAND_LENGTH)%nat = false) as ->
    by (apply Nat.ltb_ge; lia).
  assert ((length cards =? HAND_LENGTH)%nat = false) as ->
    by (apply Nat.eqb_neq; lia).
  cbn [negb orb]. fold hands.
  destruct (best_of_spec hands NO_SCORE None Hok_scores)
    as [[_ Hle] | (hand & s & Hb & Hin & Hs & _ & Hle)].
  - exfalso.
    assert (hands ≠ []) as Hne
      by (apply combinations_nonempty; rewrite Hsl; lia).
    destruct hands as [| h hands']; [contradiction |].
    apply Forall_cons in Hle as [(s & Hs & Hle) _].
    apply Forall_cons in Hscores as [(s' & Hs' & Hpos) _].
    assert (s' = s) as -> by congruence.
    unfold NO_SCORE in Hle. lra.
  - exists hand, s. apply combinations_spec in Hin as [Hl Hsub].
    repeat split; assumption.
Qed.

Lemma find_hand_takes_a_best_hand_witness :
  ∃ hand s,
    find_hand Examples.seven_cards = Ok (Some hand)
    ∧ length hand = HAND_LENGTH
    ∧ hand `sublist_of` __sort_hand Examples.seven_cards
    ∧ __score_hand hand = Ok s
    ∧ Forall (λ other, ∃ s', __score_hand other = Ok s' ∧ (s' <= s)%Q)
             (combinations (__sort_hand Examples.seven_cards) HAND_LENGTH).
Proof.
  apply (find_hand_takes_a_best_hand Examples.seven_cards).
  - unfold HAND_LENGTH. cbn. lia.
  - repeat (apply Forall_cons_2;
            [unfold Card.ok; cbv; repeat split; congruence |]).
    apply Forall_nil_2.
Defined.

End BestHand.

(** ** Hole cards and bands *)

Section HoleCards.

(** X8. [Hand] keeps its two cards with the higher value first.  The gap
    is at least [-1], and [-1] exactly for a pair.  Swapping the arguments
    gives the same hand when the values differ, and a different hand when
    two distinct cards have the same value. *)
Theorem hand_init_orders_the_cards (card1 card2 : Card.t) :
  let h := Hand.init card1 card2 in
  Card.value (Hand.low h) <= Card.value (Hand.high h)
  ∧ ((Hand.high h = card1 ∧ Hand.low h = card2)
     ∨ (Hand.high h = card2 ∧ Hand.low h = card1))
  ∧ Hand.score h = None
  ∧ -1 <= Hand.card_gap h
  ∧ (Hand.is_pair h = true ↔ Hand.card_gap h = -1)
  ∧ (Card.value card1 ≠ Card.value card2 → Hand.init card2 card1 = h)
  ∧ (Card.value card1 = Card.value card2 → card1 ≠ card2 →
     Hand.init card2 card1 ≠ h).
Proof.
  unfold Hand.init, Hand.card_gap, Hand.is_pair.
  destruct (Z.gtb_spec (Card.value card1) (Card.value card2)) as [H12 | H12];
    destruct (Z.gtb_spec (Card.value card2) (Card.value card1)) as [H21 | H21];
    cbn [Hand.high Hand.low]; rewrite Z.eqb_eq;
    repeat split; try lia; try tauto; try reflexivity;
    try (intros; lia); try congruence.
Qed.


End HoleCards.

(** ** The size of the preflop table *)

Section PreflopTable.
Import PreflopCalculator.

(** X10. The two players of a try share the pot: what one side wins the
    other loses. *)
Theorem try_hand_shares_the_pot (ours theirs : Q) :
  (try_hand (ours, theirs) + try_hand (theirs, ours) == 1)%Q.
Proof.
  unfold try_hand.
  destruct (Qlt_bool theirs ours) eqn:E1.
  - apply Qlt_bool_iff in E1.
    assert (Qlt_bool ours theirs = false) as ->
      by (apply Qlt_bool_false; lra).
    destruct (Qeq_bool theirs ours) eqn:E2; [| reflexivity].
    apply Qeq_bool_iff in E2. lra.
  - apply Qlt_bool_false in E1.
    destruct (Qeq_bool ours theirs) eqn:E2.
    + apply Qeq_bool_iff in E2.
      assert (Qlt_bool ours theirs = false) as ->
        by (apply Qlt_bool_false; lra).
      assert (Qeq_bool theirs ours = true) as ->
        by (apply Qeq_bool_iff; lra).
      reflexivity.
    + assert (Qlt_bool ours theirs = true) as ->; [| reflexivity].
      apply Qlt_bool_iff. apply Qle_lt_or_eq in E1 as [E1 | E1]; [exact E1 |].
      apply Qeq_bool_neq in E2. contradiction.
Qed.

Lemma combinations_one_length {A : Type} (l : list A) :
  length (combinations l 1) = length l.
Proof.
  induction l as [| x l IH]; [reflexivity |].
  cbn [combinations]. rewrite length_app, length_map, IH.
  destruct l; reflexivity.
Qed.

Lemma combinations_two_length {A : Type} (l : list A) :
  (2 * length (combinations l 2) = length l * (length l - 1))%nat.
Proof.
  induction l as [| x l IH]; [reflexivity |].
  cbn [combinations]. rewrite length_app, length_map.
  rewrite combinations_one_length. cbn [length]. nia.
Qed.

Lemma NoDup_map_cons {A : Type} (x : A) (hands : list (list A)) :
  NoDup hands → NoDup (map (cons x) hands).
Proof.
  induction 1 as [| h hands Hnotin _ IH]; cbn [map]; [constructor |].
  apply NoDup_cons. split; [| exact IH].
  intros Hin. apply list_elem_of_In, in_map_iff in Hin as (h' & Heq & Hin).
  injection Heq as ->. apply Hnotin, list_elem_of_In. exact Hin.
Qed.

Lemma combinations_NoDup {A : Type} (l : list A) (k : nat) :
  NoDup l → NoDup (combinations l k).
Proof.
  revert k. induction l as [| x l IH]; intros k Hnd.
  - destruct k; cbn; [apply NoDup_singleton | constructor].
  - destruct k as [| k]; cbn [combinations]; [apply NoDup_singleton |].
    apply NoDup_cons in Hnd as [Hnotin Hnd].
    apply NoDup_app. split; [apply NoDup_map_cons, IH; exact Hnd |].
    split; [| apply IH; exact Hnd].
    intros h Hin Hin'.
    apply list_elem_of_In, in_map_iff in Hin as (h' & <- & _).
    apply combinations_spec in Hin' as [_ Hsub].
    apply Hnotin. eapply elem_of_sublist; [left | exact Hsub].
Qed.

(** X11. From a deck of distinct cards [run] stores one entry for every
    unordered pair of cards, each pair once: [n * (n - 1) / 2] entries,
    the 1326 of the source's comment for 52 cards. *)
Theorem preflop_table_has_every_pair
    (full_deck : list Card.t) (deal : list Card.t → nat → Q * Q) :
  NoDup full_deck →
  ∃ wins,
    run full_deck deal = Ok wins
    ∧ NoDup (wins.*1)
    ∧ Forall (λ hand, length hand = 2%nat ∧ hand `sublist_of` full_deck)
             (wins.*1)
    ∧ (2 * length wins = length full_deck * (length full_deck - 1))%nat
    ∧ (length full_deck = 52%nat → length wins = 1326%nat).
Proof.
  intros Hnd. unfold run.
  destruct (run_hands_bounds deal (combinations full_deck 2))
    as (wins & Hrun & _ & Hkeys).
  exists wins. split; [exact Hrun |].
  assert (length wins = length (combinations full_deck 2)) as Hlen
    by (rewrite <- Hkeys, length_fmap; reflexivity).
  pose proof (combinations_two_length full_deck) as Htwo.
  rewrite Hkeys.
  split; [apply combinations_NoDup; exact Hnd |].
  split; [apply Forall_forall; intros h Hh; apply combinations_spec; exact Hh |].
  split; [lia |]. intros H52. rewrite H52 in Htwo. lia.
Qed.

Lemma preflop_table_has_every_pair_witness :
  ∃ wins,
    run Examples.ace_high (λ _ _, (1, 0)%Q) = Ok wins
    ∧ NoDup (wins.*1)
    ∧ Forall (λ hand, length hand = 2%nat
                      ∧ hand `sublist_of` Examples.ace_high) (wins.*1)
    ∧ (2 * length wins = 5 * (5 - 1))%nat
    ∧ (length Examples.ace_high = 52%nat → length wins = 1326%nat).
Proof.
  apply (preflop_table_has_every_pair Examples.ace_high (λ _ _, (1, 0)%Q)).
  compute_done.
Defined.

End PreflopTable.

(** ** A street of betting *)

Section Street.
Import BettingRound.

(** What a post that returns has done. *)
Lemma post_bet_inv (self self' : t) (player : string) (bet : Z)
    (answer : bool) :
  post_bet player bet self = Ok (answer, self') →
  ∃ previous,
    next_better self = Ok (Some player)
    ∧ bets self !! player = Some previous
    ∧ bots self' = bots self
    ∧ 0 < Z.of_nat (length (bots self))
    ∧ next_better_index self'
      = (next_better_index self + 1) `mod` Z.of_nat (length (bots self))
    ∧ ((answer = true ∧ sidepot self <= previous + bet
        ∧ pot self' = pot self + bet
        ∧ sidepot self' = Z.max (sidepot self) (previous + bet)
        ∧ bets self' = <[player := previous + bet]> (bets self)
        ∧ high_better self'
          = (if previous + bet >? sidepot self then Some player
             else high_better self))
       ∨ (answer = false ∧ previous + bet < sidepot self
          ∧ pot self' = pot self
          ∧ sidepot self' = sidepot self
          ∧ bets self' = delete player (bets self)
          ∧ high_better self' = high_better self)).
Proof.
  unfold post_bet.
  destruct (next_better self) as [next | e]; [| discriminate].
  cbn [mbind result_bind].
  destruct (decide (next = Some player)) as [-> | Hne];
    [| rewrite bool_decide_eq_false_2 by exact Hne; discriminate].
  rewrite bool_decide_eq_true_2 by reflexivity. cbn [negb].
  destruct (Z.eqb_spec (Z.of_nat (length (bots self))) 0) as [E0 | E0];
    [discriminate |].
  cbn [mbind result_bind mret result_ret bets with_next_better_index].
  destruct (bets self !! player) as [previous |]; [| discriminate].
  cbn [mbind result_bind mret result_ret sidepot pot with_next_better_index].
  intros Hpost. exists previous.
  destruct (Z.geb_spec (previous + bet) (sidepot self)) as [Hge | Hlt];
    injection Hpost as <- <-.
  - unfold __process_bet. cbn.
    destruct (Z.gtb_spec (previous + bet) (sidepot self)); cbn;
      (do 3 (split; [reflexivity |])); (split; [lia |]);
      (split; [reflexivity |]); left; repeat split; lia.
  - do 3 (split; [reflexivity |]). split; [lia |]. split; [reflexivity |].
    right. cbn. repeat split; lia.
Qed.

(** X12. A post by anybody but the player [next_better] names changes
    nothing: it raises [AssertionError], or the error of [next_better].
    In particular nobody can post in a closed round. *)
Theorem post_bet_out_of_turn (self : t) (player : string) (bet : Z) :
  next_better self ≠ Ok (Some player) →
  post_bet player bet self
  = Raise (match next_better self with
           | Ok _ => AssertionError
           | Raise e => e
           end).
Proof.
  intros Hne. unfold post_bet.
  destruct (next_better self) as [next | e]; [| reflexivity].
  cbn [mbind result_bind].
  rewrite bool_decide_eq_false_2 by congruence. reflexivity.
Qed.

Lemma post_bet_out_of_turn_witness :
  post_bet "B" 20 Examples.facing_a_raise = Raise AssertionError
  ∧ post_bet "C" 20 Examples.facing_a_raise = Raise AssertionError.
Proof.
  split.
  - apply (post_bet_out_of_turn Examples.facing_a_raise "B" 20).
    vm_compute. congruence.
  - apply (post_bet_out_of_turn Examples.facing_a_raise "C" 20).
    vm_compute. congruence.
Defined.

(** X13. A post that returns touches the bet of the poster only: the
    players and the bets of the others stay, nobody joins the bets, and
    the index moves to the next seat, inside the list. *)
Theorem post_bet_touches_only_the_poster
    (self self' : t) (player : string) (bet : Z) (answer : bool) :
  post_bet player bet self = Ok (answer, self') →
  bots self' = bots self
  ∧ next_better_index self'
    = (next_better_index self + 1) `mod` Z.of_nat (length (bots self))
  ∧ 0 <= next_better_index self' < Z.of_nat (length (bots self'))
  ∧ (∀ other, other ≠ player → bets self' !! other = bets self !! other)
  ∧ (∀ other, bets self !! other = None → bets self' !! other = None).
Proof.
  intros H. apply post_bet_inv in H
    as (previous & _ & Hprev & Hbots & Hlen & Hidx & Hcases).
  rewrite Hbots, Hidx. split; [reflexivity |]. split; [reflexivity |].
  split; [apply Z.mod_pos_bound; exact Hlen |].
  assert (∀ other, other ≠ player → bets self' !! other = bets self !! other)
    as Hother.
  { intros other Hne.
    destruct Hcases as [(_ & _ & _ & _ & -> & _) | (_ & _ & _ & _ & -> & _)].
    - apply lookup_insert_ne. congruence.
    - apply lookup_delete_ne. congruence. }
  split; [exact Hother |]. intros other Hnone.
  rewrite Hother; [exact Hnone |]. intros ->. congruence.
Qed.

Lemma post_bet_touches_only_the_poster_witness :
  bots Examples.big_blind_checked = bots Examples.big_blind_to_act
  ∧ next_better_index Examples.big_blind_checked = (1 + 1) `mod` 4
  ∧ 0 <= next_better_index Examples.big_blind_checked < 4
  ∧ (∀ other, other ≠ "B" →
       bets Examples.big_blind_checked !! other
       = bets Examples.big_blind_to_act !! other)
  ∧ (∀ other, bets Examples.big_blind_to_act !! other = None →
       bets Examples.big_blind_checked !! other = None).
Proof.
  apply (post_bet_touches_only_the_poster
           Examples.big_blind_to_act Examples.big_blind_checked "B" 0 true).
  vm_compute. reflexivity.
Defined.

(** X14. A post above the side pot is a raise: the side pot becomes the
    new total and the poster the high bettor, who cannot bet again.  A
    post that just reaches the side pot leaves both as they were. *)
Theorem raise_sets_the_high_better
    (self self' : t) (player : string) (bet previous : Z) :
  post_bet player bet self = Ok (true, self') →
  bets self !! player = Some previous →
  (sidepot self < previous + bet →
   sidepot self' = previous + bet
   ∧ high_better self' = Some player
   ∧ can_bet self' player = false)
  ∧ (previous + bet = sidepot self →
     sidepot self' = sidepot self
     ∧ high_better self' = high_better self).
Proof.
  intros H Hprev. apply post_bet_inv in H
    as (previous' & _ & Hprev' & _ & _ & _ & Hcases).
  assert (previous' = previous) as -> by congruence.
  destruct Hcases as [(_ & _ & _ & Hs & _ & Hh) | (Hf & _)];
    [| discriminate Hf].
  split.
  - intros Hraise.
    assert ((previous + bet >? sidepot self) = true) as E
      by (rewrite Z.gtb_ltb; apply Z.ltb_lt; exact Hraise).
    rewrite E in Hh. split; [lia |]. split; [exact Hh |].
    unfold can_bet. rewrite Hh.
    rewrite (bool_decide_eq_true_2 (Some player = Some player)) by reflexivity.
    apply andb_false_r.
  - intros Hcall.
    assert ((previous + bet >? sidepot self) = false) as E
      by (rewrite Z.gtb_ltb; apply Z.ltb_ge; lia).
    rewrite E in Hh. split; [lia | exact Hh].
Qed.

Lemma raise_sets_the_high_better_witness :
  ∃ self',
    post_bet "C" 40 Examples.four_handed = Ok (true, self')
    ∧ sidepot self' = 0 + 40
    ∧ high_better self' = Some "C"
    ∧ can_bet self' "C" = false.
Proof.
  eexists. split; [vm_compute; reflexivity |].
  eapply (raise_sets_the_high_better Examples.four_handed _ "C" 40 0).
  - vm_compute. reflexivity.
  - vm_compute. reflexivity.
  - vm_compute. reflexivity.
Defined.

Lemma init_loop_bets_lookup (i : Z) (todo : list string) (self : t)
    (player : string) :
  NoDup todo →
  bets (init_loop i todo self) !! player
  = if decide (player ∈ todo) then Some (forced (bets self) player)
    else bets self !! player.
Proof.
  revert i self. induction todo as [| bot rest IH]; intros i self Hnd.
  - rewrite decide_False by apply not_elem_of_nil. reflexivity.
  - apply NoDup_cons in Hnd as [Hnotin Hnd].
    rewrite init_loop_cons, (IH _ _ Hnd).
    destruct (init_step i bot self) as (_ & _ & _ & _ & Hb & _).
    destruct (decide (player = bot)) as [-> | Hne].
    + rewrite (decide_False (P := bot ∈ rest)) by exact Hnotin.
      rewrite (decide_True (P := bot ∈ bot :: rest)) by left.
      rewrite Hb. apply lookup_insert_eq.
    + assert (bets (init_loop i [bot] self) !! player = bets self !! player)
        as Hsame by (apply init_step_bets_other; exact Hne).
      unfold forced. rewrite Hsame.
      destruct (decide (player ∈ rest)) as [Hin | Hout].
      * rewrite decide_True by (right; exact Hin). reflexivity.
      * rewrite decide_False; [reflexivity |].
        intros Hin. apply elem_of_cons in Hin as [? | ?]; contradiction.
Qed.

(** X15. After [__init__] with distinct players who are the only
    posters, the staked players are exactly the listed players, and none
    of them has bet more than the side pot. *)
Theorem init_stakes_the_players
    (players : list string) (posted : gmap string Z) (pot0 : Z) :
  NoDup players →
  (∀ p, is_Some (posted !! p) → p ∈ players) →
  let round := init players posted pot0 in
  bets_capped round
  ∧ 0 <= sidepot round
  ∧ (∀ p, is_staked round p = true ↔ p ∈ players)
  ∧ (∀ p, p ∈ players → bets round !! p = Some (forced posted p)).
Proof.
  intros Hnd Hdom round.
  set (start := mk pot0 0 players posted None (-1)).
  set (looped := init_loop 0 players start).
  assert (sidepot round = sidepot looped ∧ bets round = bets looped)
    as [Rs Rb].
  { subst round. unfold init. fold start. fold looped.
    unfold __set_better_index.
    destruct (next_better_index looped =? -1); split; reflexivity. }
  assert (∀ p, bets round !! p
               = if decide (p ∈ players) then Some (forced posted p)
                 else posted !! p) as Hlookup.
  { intros p. rewrite Rb. unfold looped.
    rewrite init_loop_bets_lookup by exact Hnd. reflexivity. }
  pose proof (init_loop_sidepot_ge 0 players start) as Hge.
  fold looped in Hge. cbn [sidepot start] in Hge.
  split; [| split; [lia | split]].
  - intros p bet Hb. rewrite Hlookup in Hb. rewrite Rs.
    destruct (decide (p ∈ players)) as [Hin | Hout].
    + injection Hb as <-. unfold forced.
      destruct (posted !! p) as [b |] eqn:E; cbn [default]; [| exact Hge].
      apply (init_loop_sidepot_bound 0 players start p b Hnd Hin E).
    + exfalso. apply Hout, Hdom. eauto.
  - intros p. unfold is_staked. rewrite Hlookup.
    destruct (decide (p ∈ players)) as [Hin | Hout].
    + rewrite bool_decide_eq_true_2 by eauto. tauto.
    + split; [| contradiction]. intros H.
      apply bool_decide_eq_true_1 in H. apply Hdom. exact H.
  - intros p Hin. rewrite Hlookup. rewrite decide_True by exact Hin.
    reflexivity.
Qed.

Lemma init_stakes_the_players_witness :
  bets_capped Examples.four_handed
  ∧ 0 <= sidepot Examples.four_handed
  ∧ (∀ p, is_staked Examples.four_handed p = true
          ↔ p ∈ ["A"; "B"; "C"; "D"])
  ∧ (∀ p, p ∈ ["A"; "B"; "C"; "D"] →
          bets Examples.four_handed !! p
          = Some (forced Examples.blinds_posted p)).
Proof.
  apply (init_stakes_the_players ["A"; "B"; "C"; "D"]
           Examples.blinds_posted 0).
  - compute_done.
  - intros p [bet Hb].
    apply (map_Forall_lookup_1 (λ p _, p ∈ ["A"; "B"; "C"; "D"])
             Examples.blinds_posted p bet); [compute_done | exact Hb].
Defined.

(** X16. While no bet is above the side pot, a post keeps it so, only
    a non-negative amount can stand, and neither the pot nor the side pot
    ever goes down. *)
Theorem post_bet_keeps_the_cap
    (self self' : t) (player : string) (bet : Z) (answer : bool) :
  bets_capped self →
  post_bet player bet self = Ok (answer, self') →
  bets_capped self'
  ∧ pot self <= pot self'
  ∧ sidepot self <= sidepot self'
  ∧ (answer = true → 0 <= bet).
Proof.
  intros Hcap H. apply post_bet_inv in H
    as (previous & _ & Hprev & _ & _ & _ & Hcases).
  pose proof (Hcap player previous Hprev) as Hle.
  destruct Hcases as [(_ & Hge & Hp & Hs & Hb & _) | (-> & _ & Hp & Hs & Hb & _)].
  - split; [| lia]. intros p b Hpb. rewrite Hb in Hpb. rewrite Hs.
    destruct (decide (player = p)) as [-> | Hne].
    + rewrite lookup_insert_eq in Hpb. injection Hpb as <-. lia.
    + rewrite lookup_insert_ne in Hpb by exact Hne.
      specialize (Hcap p b Hpb). lia.
  - split; [| split; [lia | split; [lia | discriminate]]].
    intros p b Hpb. rewrite Hb in Hpb. rewrite Hs.
    apply lookup_delete_Some in Hpb as [_ Hpb]. exact (Hcap p b Hpb).
Qed.

Lemma post_bet_keeps_the_cap_witness :
  bets_capped Examples.big_blind_checked
  ∧ pot Examples.big_blind_to_act <= pot Examples.big_blind_checked
  ∧ sidepot Examples.big_blind_to_act <= sidepot Examples.big_blind_checked
  ∧ (true = true → 0 <= 0).
Proof.
  apply (post_bet_keeps_the_cap Examples.big_blind_to_act
           Examples.big_blind_checked "B" 0 true).
  - intros p bet Hb.
    apply (map_Forall_lookup_1 (λ _ bet, bet <= 20)
             Examples.all_called p bet); [compute_done | exact Hb].
  - vm_compute. reflexivity.
Defined.

Lemma play_cons_inv (player : string) (bet : Z) (rest : list (string * Z))
    (round round' : t) (answers : list bool) :
  Examples.play ((player, bet) :: rest) round = Ok (answers, round') →
  ∃ accepted middle answers',
    post_bet player bet round = Ok (accepted, middle)
    ∧ Examples.play rest middle = Ok (answers', round')
    ∧ answers = accepted :: answers'.
Proof.
  cbn [Examples.play].
  destruct (post_bet player bet round) as [[accepted middle] | e];
    [| discriminate].
  cbn [mbind result_bind].
  destruct (Examples.play rest middle) as [[answers' last] | e] eqn:Eplay;
    [| discriminate].
  cbn [mbind result_bind mret result_ret].
  intros H. injection H as <- <-.
  exists accepted, middle, answers'. repeat split. exact Eplay.
Qed.

(** X17. Over any sequence of posts that goes through, every post is
    answered, the players stay, and the pot grows by the amounts of the
    posts that were answered [True], not by those of the folds. *)
Theorem play_accounts_for_the_pot
    (posts : list (string * Z)) (round round' : t) (answers : list bool) :
  Examples.play posts round = Ok (answers, round') →
  length answers = length posts
  ∧ bots round' = bots round
  ∧ pot round' = pot round + accepted_total posts answers.
Proof.
  revert round answers.
  induction posts as [| [player bet] rest IH]; intros round answers H.
  - cbn in H. injection H as <- <-. cbn. repeat split. lia.
  - apply play_cons_inv in H as (accepted & middle & answers' & Hpost & Hplay & ->).
    destruct (IH middle answers' Hplay) as (Hlen & Hbots & Hpot).
    apply post_bet_inv in Hpost
      as (previous & _ & _ & Hb & _ & _ & Hcases).
    cbn [length accepted_total]. rewrite Hlen, Hbots, Hb, Hpot.
    split; [reflexivity |]. split; [reflexivity |].
    destruct Hcases as [(-> & _ & -> & _) | (-> & _ & -> & _)]; lia.
Qed.

Lemma play_accounts_for_the_pot_witness :
  length [true; true; true] = 3%nat
  ∧ bots Examples.big_blind_to_act = bots Examples.four_handed
  ∧ pot Examples.big_blind_to_act
    = pot Examples.four_handed
      + accepted_total [("C", 20); ("D", 20); ("A", 10)] [true; true; true].
Proof.
  apply (play_accounts_for_the_pot
           [("C", 20); ("D", 20); ("A", 10)] Examples.four_handed
           Examples.big_blind_to_act [true; true; true]).
  vm_compute. reflexivity.
Defined.

(** X18. Over any sequence of posts that goes through, a player who is
    out of the bets stays out: nothing brings a folded player back. *)
Theorem folded_players_stay_out
    (posts : list (string * Z)) (round round' : t) (answers : list bool)
    (player : string) :
  Examples.play posts round = Ok (answers, round') →
  bets round !! player = None →
  bets round' !! player = None ∧ can_bet round' player = false.
Proof.
  intros Hplay Hout.
  assert (bets round' !! player = None) as Hnone.
  { revert round answers Hplay Hout.
    induction posts as [| [poster bet] rest IH]; intros round answers H Hout.
    - cbn in H. injection H as <- <-. exact Hout.
    - apply play_cons_inv in H
        as (accepted & middle & answers' & Hpost & Hplay & ->).
      apply (IH middle answers' Hplay).
      apply post_bet_inv in Hpost
        as (previous & _ & Hprev & _ & _ & _ & Hcases).
      assert (poster ≠ player) as Hne by (intros ->; congruence).
      destruct Hcases as [(_ & _ & _ & _ & -> & _) | (_ & _ & _ & _ & -> & _)].
      + rewrite lookup_insert_ne by exact Hne. exact Hout.
      + rewrite lookup_delete_ne by exact Hne. exact Hout. }
  split; [exact Hnone |].
  unfold can_bet, is_staked. rewrite Hnone.
  rewrite bool_decide_eq_false_2; [reflexivity |].
  intros [? ?]. discriminate.
Qed.

Lemma folded_players_stay_out_witness :
  Examples.play [("A", 10)] Examples.facing_a_raise
  = Ok ([false], Examples.small_blind_folded)
  ∧ bets Examples.big_blind_called !! "A" = None
  ∧ can_bet Examples.big_blind_called "A" = false.
Proof.
  split; [vm_compute; reflexivity |].
  apply (folded_players_stay_out [("B", 20)] Examples.small_blind_folded
           Examples.big_blind_called [true] "A").
  - vm_compute. reflexivity.
  - vm_compute. reflexivity.
Defined.

End Street.

(** ** Hands and eliminations in the rotation *)

Section Rotation.
Import BlindManager.

Lemma py_index_in_range {A : Type} (l : list A) (i : Z) :
  0 <= i < Z.of_nat (length l) →
  ∃ x, l !! Z.to_nat i = Some x ∧ py_index l i = Ok x.
Proof.
  intros Hi.
  destruct (lookup_lt_is_Some_2 l (Z.to_nat i) ltac:(lia)) as [x Hx].
  exists x. split; [exact Hx |].
  replace i with (Z.of_nat (Z.to_nat i)) at 1 by lia.
  apply py_index_nat. exact Hx.
Qed.

Lemma finish_hand_step (self : t) :
  bots self ≠ [] →
  ∃ self',
    finish_hand self = Ok self'
    ∧ sb_index self'
      = (sb_index self + 1) `mod` Z.of_nat (length (bots self))
    ∧ bots self' = bots self
    ∧ blind self' = blind self
    ∧ hands_per_level self' = hands_per_level self
    ∧ hands_this_level self'
      = (if hands_this_level self + 1 >=? hands_per_level self then 0
         else hands_this_level self + 1).
Proof.
  intros Hne. unfold finish_hand, __wrap_index, wrap.
  assert ((Z.of_nat (length (bots self)) =? 0) = false) as ->
    by (apply Z.eqb_neq; destruct (bots self); [contradiction | cbn; lia]).
  cbn [mbind result_bind mret result_ret].
  eexists. split; [reflexivity |].
  unfold __check_raise_blinds. cbn [hands_this_level hands_per_level].
  destruct (hands_this_level self + 1 >=? hands_per_level self);
    repeat split.
Qed.

(** X19. The player who posts the big blind of a hand posts the small
    blind of the next hand. *)
Theorem big_blind_becomes_small_blind
    (self : t) (amount : Z) (player : string) :
  next_bb self = Ok (amount, player) →
  ∃ self',
    finish_hand self = Ok self'
    ∧ next_sb self' = Ok (Blinds.small_blind (blind self), player).
Proof.
  unfold next_bb, finish_hand.
  destruct (__wrap_index self (sb_index self + 1)) as [index | e];
    [| discriminate].
  cbn [mbind result_bind mret result_ret].
  destruct (py_index (bots self) index) as [bot | e] eqn:E; [| discriminate].
  cbn [mbind result_bind mret result_ret]. intros H. injection H as _ <-.
  eexists. split; [reflexivity |].
  unfold next_sb, __check_raise_blinds. cbn [hands_this_level hands_per_level].
  destruct (hands_this_level self + 1 >=? hands_per_level self);
    cbn [bots sb_index blind]; rewrite E; reflexivity.
Qed.

Lemma big_blind_becomes_small_blind_witness :
  ∃ self',
    finish_hand (init 5 ["A"; "B"; "C"]) = Ok self'
    ∧ next_sb self' = Ok (10, "B").
Proof.
  apply (big_blind_becomes_small_blind (init 5 ["A"; "B"; "C"]) 20 "B").
  vm_compute. reflexivity.
Defined.

(** X20. With at least one player [finish_hand] always leaves the
    pointer on a seat, even when it was off the list before; it keeps the
    players and the blinds, and keeps the count of hands below
    [hands_per_level]. *)
Theorem finish_hand_lands_on_a_seat (self : t) :
  bots self ≠ [] →
  ∃ self',
    finish_hand self = Ok self'
    ∧ 0 <= sb_index self' < Z.of_nat (length (bots self'))
    ∧ bots self' = bots self
    ∧ blind self' = blind self
    ∧ (0 <= hands_this_level self < hands_per_level self →
       0 <= hands_this_level self' < hands_per_level self').
Proof.
  intros Hne.
  destruct (finish_hand_step self Hne)
    as (self' & Hf & Hsb & Hbots & Hblind & Hper & Hthis).
  exists self'. rewrite Hbots, Hsb, Hper, Hthis.
  split; [exact Hf |]. split.
  - apply Z.mod_pos_bound. destruct (bots self); [contradiction | cbn; lia].
  - split; [reflexivity |]. split; [exact Hblind |]. intros Hcount.
    destruct (Z.geb_spec (hands_this_level self + 1) (hands_per_level self));
      lia.
Qed.

Lemma finish_hand_lands_on_a_seat_witness :
  ∃ self',
    finish_hand (mk 5 2 ["A"; "B"] [0; 0; 0] 2 (Blinds.mk 10 20)) = Ok self'
    ∧ 0 <= sb_index self' < Z.of_nat (length (bots self'))
    ∧ bots self' = ["A"; "B"]
    ∧ blind self' = Blinds.mk 10 20
    ∧ (0 <= 2 < 5 →
       0 <= hands_this_level self' < hands_per_level self').
Proof.
  apply (finish_hand_lands_on_a_seat
           (mk 5 2 ["A"; "B"] [0; 0; 0] 2 (Blinds.mk 10 20))).
  discriminate.
Defined.

(** X21. After [n] hands the pointer has moved [n] seats round the
    table; after as many hands as there are players it is back where it
    was, on the same player. *)
Theorem blinds_go_round_the_table (n : nat) (self : t) :
  0 <= sb_index self < Z.of_nat (length (bots self)) →
  ∃ self',
    finish_hands n self = Ok self'
    ∧ bots self' = bots self
    ∧ sb_index self'
      = (sb_index self + Z.of_nat n) `mod` Z.of_nat (length (bots self))
    ∧ (n = length (bots self) → next_sb self' = next_sb self).
Proof.
  intros Hsb.
  assert (∃ self',
            finish_hands n self = Ok self'
            ∧ bots self' = bots self
            ∧ blind self' = blind self
            ∧ sb_index self'
              = (sb_index self + Z.of_nat n)
                  `mod` Z.of_nat (length (bots self)))
    as (self' & Hf & Hbots & Hblind & Hidx).
  { revert self Hsb. induction n as [| n IH]; intros self Hsb.
    - exists self. cbn [finish_hands]. repeat split.
      rewrite Z.add_0_r, Z.mod_small by lia. reflexivity.
    - assert (bots self ≠ []) as Hne
        by (destruct (bots self); [cbn in Hsb; lia | discriminate]).
      destruct (finish_hand_step self Hne)
        as (middle & Hf & Hm & Hbots & Hblind & _).
      destruct (IH middle) as (self' & Hf' & Hbots' & Hblind' & Hidx').
      { rewrite Hbots, Hm. apply Z.mod_pos_bound. lia. }
      exists self'. cbn [finish_hands]. rewrite Hf.
      cbn [mbind result_bind]. split; [exact Hf' |].
      split; [congruence |]. split; [congruence |].
      rewrite Hidx', Hbots, Hm. rewrite Zplus_mod_idemp_l.
      f_equal. lia. }
  exists self'. split; [exact Hf |]. split; [exact Hbots |].
  split; [exact Hidx |]. intros Hn.
  unfold next_sb. rewrite Hbots, Hblind, Hidx, Hn.
  rewrite <- (Z.mul_1_l (Z.of_nat (length (bots self)))) at 1.
  rewrite Z.mod_add by lia. rewrite Z.mod_small by lia. reflexivity.
Qed.

Lemma blinds_go_round_the_table_witness :
  ∃ self',
    finish_hands 3 Examples.third_hand = Ok self'
    ∧ bots self' = ["A"; "B"; "C"]
    ∧ sb_index self' = (2 + 3) `mod` 3
    ∧ (3%nat = 3%nat → next_sb self' = next_sb Examples.third_hand).
Proof.
  apply (blinds_go_round_the_table 3 Examples.third_hand).
  vm_compute. split; congruence.
Defined.

End Rotation.

Section Eliminations.
Import BlindManager.

Lemma eliminate_loop_total (name : string) (n i : Z) (players : list string)
    (sb : Z) :
  Z.of_nat (length players) <= n →
  ∃ sb',
    eliminate_loop name n i (Some <$> players) sb
    = Ok ((λ b, if decide (b = name) then None else Some b) <$> players, sb').
Proof.
  revert i sb. induction players as [| q players IH]; intros i sb Hn.
  - exists sb. reflexivity.
  - cbn [length] in Hn. cbn [fmap list_fmap eliminate_loop].
    fold (fmap (M := list) (@Some string) players).
    fold (fmap (M := list)
            (λ b : string, if decide (b = name) then None else Some b)
            players).
    destruct (decide (q = name)) as [-> | Hne].
    + rewrite bool_decide_eq_true_2 by reflexivity.
      assert (∃ sb1, (if sb >? i then wrap n (sb - 1) else mret sb) = Ok sb1)
        as [sb1 ->].
      { destruct (sb >? i); [| eexists; reflexivity].
        unfold wrap.
        assert ((n =? 0) = false) as -> by (apply Z.eqb_neq; lia).
        eexists. reflexivity. }
      cbn [mbind result_bind].
      destruct (IH (i + 1) sb1 ltac:(lia)) as [sb' ->].
      exists sb'. reflexivity.
    + rewrite bool_decide_eq_false_2 by congruence.
      destruct (IH (i + 1) sb ltac:(lia)) as [sb' ->].
      exists sb'. reflexivity.
Qed.

Lemma omap_marked (name : string) (players : list string) :
  omap id ((λ b, if decide (b = name) then None else Some b) <$> players)
  = filter (λ b, b ≠ name) players.
Proof.
  induction players as [| q players IH]; [reflexivity |].
  cbn [fmap list_fmap omap list_omap].
  fold (fmap (M := list)
          (λ b : string, if decide (b = name) then None else Some b) players).
  fold (omap (M := list) (@id (option string))
          ((λ b : string, if decide (b = name) then None else Some b)
             <$> players)).
  destruct (decide (q = name)) as [-> | Hne]; cbn [id].
  - rewrite filter_cons_False by (intros H; apply H; reflexivity). exact IH.
  - rewrite filter_cons_True by exact Hne. rewrite IH. reflexivity.
Qed.

(** X22. [eliminate_player] never raises.  It removes every seat of the
    player and keeps the other players in their order; the blinds and the
    count of hands are not touched. *)
Theorem eliminate_player_removes_the_player (self : t) (name : string) :
  ∃ self',
    eliminate_player self name = Ok self'
    ∧ bots self' = filter (λ b, b ≠ name) (bots self)
    ∧ (name ∉ bots self')
    ∧ blind self' = blind self
    ∧ hands_this_level self' = hands_this_level self
    ∧ hands_per_level self' = hands_per_level self.
Proof.
  unfold eliminate_player.
  destruct (eliminate_loop_total name (Z.of_nat (length (bots self))) 0
              (bots self) (sb_index self) ltac:(lia)) as [sb' ->].
  cbn [mbind result_bind mret result_ret].
  eexists. split; [reflexivity |]. cbn [bots blind hands_this_level
                                        hands_per_level].
  rewrite omap_marked. repeat split.
  intros Hin. apply list_elem_of_filter in Hin as [Hne _].
  apply Hne. reflexivity.
Qed.

(** X23. Eliminating a player who is not in the rotation changes
    nothing. *)
Theorem eliminate_absent_player (self : t) (name : string) :
  name ∉ bots self → eliminate_player self name = Ok self.
Proof.
  intros Hout. unfold eliminate_player.
  rewrite (eliminate_loop_absent name _ 0 (bots self) (sb_index self) Hout).
  cbn [mbind result_bind mret result_ret].
  rewrite omap_id_Some. destruct self. reflexivity.
Qed.

Lemma eliminate_absent_player_witness :
  eliminate_player Examples.third_hand "D" = Ok Examples.third_hand.
Proof.
  apply (eliminate_absent_player Examples.third_hand "D").
  compute_done.
Defined.

Lemma eliminate_before_pointer_witness :
  sb_index (mk 5 2 ["B"; "C"] [0; 0; 0] 1 (Blinds.mk 10 20)) = 2 - 1
  ∧ next_sb (mk 5 2 ["B"; "C"] [0; 0; 0] 1 (Blinds.mk 10 20))
    = next_sb Examples.third_hand.
Proof.
  apply (eliminate_before_pointer Examples.third_hand
           (mk 5 2 ["B"; "C"] [0; 0; 0] 1 (Blinds.mk 10 20)) "A" 0).
  - compute_done.
  - reflexivity.
  - vm_compute. split; reflexivity.
  - vm_compute. reflexivity.
Defined.

Lemma eliminate_pointer_in_range_witness :
  (0 <= sb_index (mk 5 2 ["A"; "B"] [0; 0; 0] 2 (Blinds.mk 10 20))
   < Z.of_nat (length (bots (mk 5 2 ["A"; "B"] [0; 0; 0] 2
                               (Blinds.mk 10 20)))))
  ↔ ¬ (sb_index Examples.third_hand = Z.of_nat 2
       ∧ 3%nat = length (bots Examples.third_hand)).
Proof.
  apply (eliminate_pointer_in_range Examples.third_hand
           (mk 5 2 ["A"; "B"] [0; 0; 0] 2 (Blinds.mk 10 20)) "C" 2).
  - compute_done.
  - reflexivity.
  - vm_compute. split; congruence.
  - vm_compute. reflexivity.
Defined.

(** X26. A seat at or after the pointer: the pointer keeps its index.
    When the seat is after it, the same player posts the next small
    blind; when the seat is the pointer's and not the last one, the small
    blind passes to the player who was to post the big blind. *)
Theorem eliminate_at_or_after_pointer
    (self self' : t) (name : string) (k : nat) :
  NoDup (bots self) → bots self !! k = Some name →
  0 <= sb_index self <= Z.of_nat k →
  eliminate_player self name = Ok self' →
  sb_index self' = sb_index self
  ∧ (sb_index self < Z.of_nat k → next_sb self' = next_sb self)
  ∧ (sb_index self = Z.of_nat k → (S k < length (bots self))%nat →
     ∃ amount player,
       next_bb self = Ok (amount, player)
       ∧ next_sb self' = Ok (Blinds.small_blind (blind self), player)).
Proof.
  intros Hnd Hk Hsb He.
  pose proof (lookup_lt_Some _ _ _ Hk) as Hlt.
  rewrite (eliminate_player_spec self name k Hnd Hk ltac:(lia)) in He.
  injection He as <-. cbn [sb_index bots blind].
  assert ((sb_index self >? Z.of_nat k) = false) as ->
    by (rewrite Z.gtb_ltb; apply Z.ltb_ge; lia).
  split; [reflexivity |]. split.
  - intros Hbefore.
    destruct (py_index_in_range (bots self) (sb_index self) ltac:(lia))
      as (bot & Hbot & Hi).
    unfold next_sb. cbn [sb_index bots blind]. rewrite Hi.
    replace (sb_index self) with (Z.of_nat (Z.to_nat (sb_index self))) by lia.
    rewrite (py_index_nat _ _ bot); [reflexivity |].
    rewrite list_lookup_delete_lt by lia. exact Hbot.
  - intros Hat Hnotlast.
    destruct (lookup_lt_is_Some_2 (bots self) (S k) Hnotlast) as [bot Hbot].
    exists (Blinds.big_blind (blind self)), bot.
    unfold next_bb, next_sb, __wrap_index, wrap. cbn [sb_index bots blind].
    assert ((Z.of_nat (length (bots self)) =? 0) = false) as ->
      by (apply Z.eqb_neq; lia).
    cbn [mbind result_bind mret result_ret].
    rewrite Hat, Z.mod_small by lia.
    replace (Z.of_nat k + 1) with (Z.of_nat (S k)) by lia.
    rewrite (py_index_nat _ _ _ Hbot).
    rewrite (py_index_nat _ _ bot); [split; reflexivity |].
    rewrite list_lookup_delete_ge by lia. exact Hbot.
Qed.

Lemma eliminate_at_or_after_pointer_witness :
  let before := init 5 ["A"; "B"; "C"] in
  let after := mk 5 0 ["B"; "C"] [0; 0; 0] 0 (Blinds.mk 10 20) in
  sb_index after = sb_index before
  ∧ (sb_index before < Z.of_nat 0 → next_sb after = next_sb before)
  ∧ (sb_index before = Z.of_nat 0 → (1 < length (bots before))%nat →
     ∃ amount player,
       next_bb before = Ok (amount, player)
       ∧ next_sb after = Ok (Blinds.small_blind (blind before), player)).
Proof.
  intros before after.
  apply (eliminate_at_or_after_pointer before after "A" 0).
  - compute_done.
  - reflexivity.
  - vm_compute. split; congruence.
  - vm_compute. reflexivity.
Defined.

(** X27. With two or more distinct players and the pointer on a seat,
    the small blind and the big blind are posted by different players. *)
Theorem blinds_are_posted_by_two_players (self : t) :
  NoDup (bots self) → (2 <= length (bots self))%nat →
  0 <= sb_index self < Z.of_nat (length (bots self)) →
  ∃ small big,
    next_sb self = Ok (Blinds.small_blind (blind self), small)
    ∧ next_bb self = Ok (Blinds.big_blind (blind self), big)
    ∧ small ≠ big.
Proof.
  intros Hnd Htwo Hsb.
  set (n := Z.of_nat (length (bots self))) in *.
  assert (0 <= (sb_index self + 1) `mod` n < n) as Hbb
    by (apply Z.mod_pos_bound; lia).
  destruct (py_index_in_range (bots self) (sb_index self) Hsb)
    as (small & Hs & Hsi).
  destruct (py_index_in_range (bots self) ((sb_index self + 1) `mod` n) Hbb)
    as (big & Hb & Hbi).
  exists small, big.
  unfold next_sb, next_bb, __wrap_index, wrap. fold n.
  assert ((n =? 0) = false) as -> by (apply Z.eqb_neq; lia).
  cbn [mbind result_bind mret result_ret]. rewrite Hsi, Hbi.
  split; [reflexivity |]. split; [reflexivity |]. intros ->.
  pose proof (NoDup_lookup _ _ _ _ Hnd Hs Hb) as Heq.
  assert (sb_index self = (sb_index self + 1) `mod` n) as Hsame by lia.
  destruct (Z.eq_dec (sb_index self + 1) n) as [Hlast | Hnotlast].
  - rewrite Hlast, Z.mod_same in Hsame by lia. lia.
  - rewrite Z.mod_small in Hsame by lia. lia.
Qed.

Lemma blinds_are_posted_by_two_players_witness :
  ∃ small big,
    next_sb Examples.third_hand = Ok (10, small)
    ∧ next_bb Examples.third_hand = Ok (20, big)
    ∧ small ≠ big.
Proof.
  apply (blinds_are_posted_by_two_players Examples.third_hand).
  - compute_done.
  - cbn. lia.
  - vm_compute. split; congruence.
Defined.

(** X28. A rotation without players: [next_sb] raises [IndexError],
    [next_bb] and [finish_hand] raise [ZeroDivisionError], whatever the
    pointer is. *)
Theorem empty_rotation_raises (self : t) :
  bots self = [] →
  next_sb self = Raise IndexError
  ∧ next_bb self = Raise ZeroDivisionError
  ∧ finish_hand self = Raise ZeroDivisionError.
Proof.
  intros Hempty.
  unfold next_sb, next_bb, finish_hand, __wrap_index, wrap, py_index.
  rewrite Hempty. cbn [length]. cbv zeta.
  split; [| split; reflexivity].
  destruct (sb_index self <? 0) eqn:E.
  - assert ((sb_index self + Z.of_nat 0 <? 0) = true) as ->
      by (apply Z.ltb_lt; apply Z.ltb_lt in E; lia).
    reflexivity.
  - rewrite E.
    assert ((Z.of_nat 0 <=? sb_index self) = true) as ->
      by (apply Z.leb_le; apply Z.ltb_ge in E; lia).
    reflexivity.
Qed.

Lemma empty_rotation_raises_witness :
  next_sb (init 5 []) = Raise IndexError
  ∧ next_bb (init 5 []) = Raise ZeroDivisionError
  ∧ finish_hand (init 5 []) = Raise ZeroDivisionError.
Proof.
  apply (empty_rotation_raises (init 5 [])). reflexivity.
Defined.

End Eliminations.
